(** * TaskMaster: the task store, its reducer and its derived views

    A shallow embedding of the state container of the React application
    (TaskContext: [taskReducer], [getFilteredTasks], [getStats], the two
    persistence effects of [TaskProvider]) and of the data layer of the
    vanilla application (app.js: [createTask], [updateTask], [deleteTask],
    [toggleTaskCompletion], [clearCompletedTasks], [saveTasks], [sortTasks],
    [calculateStats]). *)

From Stdlib Require Import ZArith Lia Floats Ascii String.
From stdpp Require Import gmap strings list fin_maps sorting pretty.

Open Scope Z_scope.

(** ** JavaScript values and objects *)

(** The primitive values that occur in task records, drafts, patches and
    filter settings.  Numbers stored in records are integral (ids, clock
    readings), so they are kept as [Z]. *)
Inductive JsVal :=
| VUndef
| VNull
| VBool (b : bool)
| VNum (n : Z)
| VStr (s : string).

#[global] Instance JsVal_eq_dec : EqDecision JsVal.
Proof. solve_decision. Defined.

(** A plain object with primitive fields: a task record, a draft, a patch,
    the filter settings. *)
Abbreviation Obj := (gmap string JsVal).

(** [o.k]: reading a missing property gives [undefined]. *)
Definition get (o : Obj) (k : string) : JsVal := default VUndef (o !! k).

(** [a === b] on primitives. *)
Definition strictEq (a b : JsVal) : bool := bool_decide (a = b).

(** ToBoolean. *)
Definition truthy (v : JsVal) : bool :=
  match v with
  | VUndef | VNull => false
  | VBool b => b
  | VNum n => negb (n =? 0)
  | VStr s => negb (String.eqb s "")
  end.

(** [{ ...base, ...over }]: the later spread wins on common keys. *)
Definition spread (base over : Obj) : Obj := over ∪ base.

(** A property that is present and neither [null] nor [undefined]. *)
Definition isSet (v : JsVal) : bool :=
  match v with
  | VUndef | VNull => false
  | _ => true
  end.

Definition obj (l : list (string * JsVal)) : Obj := list_to_map l.

(** What one reducer step or one mutation reads from its surroundings:
    [Date.now()], [Math.floor(Math.random() * 1000)] and
    [new Date().toISOString()]. *)
Record Env := mkEnv {
  dateNow : Z;
  random1000 : Z;
  isoNow : string
}.

(** ** Strings *)

Definition lowerAscii (c : ascii) : ascii :=
  let n := nat_of_ascii c in
  if ((65 <=? n) && (n <=? 90))%nat then ascii_of_nat (n + 32) else c.

(** [s.toLowerCase()], on the ASCII letters; other characters are kept. *)
Fixpoint toLowerCase (s : string) : string :=
  match s with
  | EmptyString => EmptyString
  | String c s' => String (lowerAscii c) (toLowerCase s')
  end.

(** [s.includes(sub)]. *)
Fixpoint includes (s sub : string) : bool :=
  String.prefix sub s ||
  match s with
  | EmptyString => false
  | String _ s' => includes s' sub
  end.

(** ToString on primitives. *)
Definition toStr (v : JsVal) : string :=
  match v with
  | VUndef => "undefined"
  | VNull => "null"
  | VBool true => "true"
  | VBool false => "false"
  | VNum n => pretty n
  | VStr s => s
  end.

(** ** Numbers returned by comparison functions *)

Inductive Num :=
| NaN
| Fin (z : Z).

(** ** The host: what the engine and its library decide

    [sortEngine] is the order in which [Array.prototype.sort] hands two
    elements to the comparison function (see [arraySort]);
    [localeCompare a b] is [a.localeCompare(b)]; [Date_parse s] is the time
    value of [new Date(s)] in milliseconds, [None] for an invalid date. *)
Inductive Engine :=
| InsertedFirst
| InsertedSecond.

Class Host := mkHost {
  sortEngine : Engine;
  localeCompare : string → string → Z;
  Date_parse : string → option Z
}.

(** ** Array.prototype.sort

    The standard leaves the sequence of calls of the comparison function to
    the implementation.  Both engines modelled here insert the elements one
    by one, left to right, into the sorted prefix, moving the new element
    leftwards from the right end of the prefix; they differ in the argument
    order of the call that decides one move:
    - [InsertedFirst]: the new element moves left of [other] when
      [comparefn(item, other) < 0] (the insertion step of V8);
    - [InsertedSecond]: it moves left of [other] when
      [comparefn(other, item) > 0] (the insertion step of SpiderMonkey).
    A comparison function may throw ([None]); a NaN result counts as [+0]. *)
Section ArraySort.
Context {A : Type}.
Variable comparefn : A → A → option Num.

Definition order (x y : A) : option Z :=
  match comparefn x y with
  | None => None
  | Some NaN => Some 0
  | Some (Fin z) => Some z
  end.

Definition movesLeft (e : Engine) (item other : A) : option bool :=
  match e with
  | InsertedFirst => (fun z => z <? 0) <$> order item other
  | InsertedSecond => (fun z => 0 <? z) <$> order other item
  end.

(** The sorted prefix is held reversed: its right end comes first. *)
Fixpoint insertFromRight (e : Engine) (item : A) (rprefix : list A)
  : option (list A) :=
  match rprefix with
  | [] => Some [item]
  | other :: rest =>
      match movesLeft e item other with
      | None => None
      | Some true => cons other <$> insertFromRight e item rest
      | Some false => Some (item :: rprefix)
      end
  end.

Fixpoint sortLoop (e : Engine) (rprefix rest : list A) : option (list A) :=
  match rest with
  | [] => Some (rev rprefix)
  | item :: rest' =>
      match insertFromRight e item rprefix with
      | None => None
      | Some rprefix' => sortLoop e rprefix' rest'
      end
  end.

Definition arraySort (e : Engine) (l : list A) : option (list A) :=
  sortLoop e [] l.

End ArraySort.

(** ** The comparison functions of the three sort criteria *)

(** [priorityOrder[p]] for [{ high: 3, medium: 2, low: 1 }]. *)
Definition priorityOrder (p : JsVal) : option Z :=
  match p with
  | VStr "high" => Some 3
  | VStr "medium" => Some 2
  | VStr "low" => Some 1
  | _ => None
  end.

(** [(a, b) => priorityOrder[b.priority] - priorityOrder[a.priority]] *)
Definition byPriority (a b : Obj) : option Num :=
  match priorityOrder (get b "priority"), priorityOrder (get a "priority") with
  | Some pb, Some pa => Some (Fin (pb - pa))
  | _, _ => Some NaN
  end.

(** [(a, b) => a.title.localeCompare(b.title)]: a TypeError unless
    [a.title] is a string. *)
Definition byTitle `{Host} (a b : Obj) : option Num :=
  match get a "title" with
  | VStr s => Some (Fin (localeCompare s (toStr (get b "title"))))
  | _ => None
  end.

(** The time value of [new Date(v)]. *)
Definition timeValue `{Host} (v : JsVal) : option Z :=
  match v with
  | VUndef => None
  | VNull => Some 0
  | VBool b => Some (if b then 1 else 0)
  | VNum n => if Z.abs n <=? 8640000000000000 then Some n else None
  | VStr s => Date_parse s
  end.

(** [(a, b) => { if (!a.dueDate) return 1; if (!b.dueDate) return -1;
                 return new Date(a.dueDate) - new Date(b.dueDate); }] *)
Definition byDueDate `{Host} (a b : Obj) : option Num :=
  if negb (truthy (get a "dueDate")) then Some (Fin 1)
  else if negb (truthy (get b "dueDate")) then Some (Fin (-1))
  else match timeValue (get a "dueDate"), timeValue (get b "dueDate") with
       | Some ta, Some tb => Some (Fin (ta - tb))
       | _, _ => Some NaN
       end.

(** The [switch] on the sort criterion, shared by [sortTasks] of app.js and
    by [getFilteredTasks] of the context. *)
Definition sortBySwitch `{Host} (criterion : JsVal) (l : list Obj)
  : option (list Obj) :=
  if strictEq criterion (VStr "priority") then
    arraySort byPriority sortEngine l
  else if strictEq criterion (VStr "title") then
    arraySort byTitle sortEngine l
  else
    arraySort byDueDate sortEngine l.

(** A [filter] whose callback may throw. *)
Fixpoint filterThrowing {A : Type} (p : A → option bool) (l : list A)
  : option (list A) :=
  match l with
  | [] => Some []
  | x :: rest =>
      match p x with
      | None => None
      | Some b =>
          (fun rest' => if b then x :: rest' else rest')
            <$> filterThrowing p rest
      end
  end.

(** [task.title.toLowerCase().includes(search) ||
     task.description.toLowerCase().includes(search)] *)
Definition matchesSearch (search : string) (task : Obj) : option bool :=
  match get task "title" with
  | VStr title =>
      if includes (toLowerCase title) search then Some true
      else match get task "description" with
           | VStr description =>
               Some (includes (toLowerCase description) search)
           | _ => None
           end
  | _ => None
  end.

(** The three filters and the sort of [getFilteredTasks] (the two
    applications have the same body). *)
Definition filterAndSort `{Host} (tasks : list Obj) (filters : Obj)
    (sortBy : JsVal) : option (list Obj) :=
  let result := tasks in
  let result :=
    if negb (strictEq (get filters "status") (VStr "all")) then
      filter (fun task => strictEq (get task "status") (get filters "status"))
             result
    else result in
  let result :=
    if negb (strictEq (get filters "priority") (VStr "all")) then
      filter (fun task =>
                strictEq (get task "priority") (get filters "priority"))
             result
    else result in
  let searched :=
    if truthy (get filters "searchTerm") then
      match get filters "searchTerm" with
      | VStr term => filterThrowing (matchesSearch (toLowerCase term)) result
      | _ => None
      end
    else Some result in
  match searched with
  | None => None
  | Some result => sortBySwitch sortBy result
  end.

(** ** Statistics *)

(** The double nearest to a count (exact below 2^53). *)
Definition toFloat (z : Z) : float := PrimFloat.of_uint63 (Uint63.of_Z z).

(** [Math.round(x)] for a finite [x]: the integer nearest to [x], halves
    going up.  The value of the double is decoded exactly.  [getStats] and
    [calculateStats] apply it to finite values only; the non-finite cases,
    which [Math.round] returns unchanged, are given 0 here. *)
Definition Math_round (x : float) : Z :=
  match Prim2SF x with
  | S754_finite s m e =>
      let sm := if s then Z.opp (Z.pos m) else Z.pos m in
      if 0 <=? e then sm * 2 ^ e
      else (2 * sm + 2 ^ (- e)) / (2 * 2 ^ (- e))
  | _ => 0
  end.

Record Stats := mkStats {
  total : Z;
  inProgress : Z;
  completed : Z;
  completionRate : Z
}.

(** The callback of the [reduce]. *)
Definition countTask (acc : Z * Z * Z) (task : Obj) : Z * Z * Z :=
  let '(total, inProgress, completed) := acc in
  let total := total + 1 in
  if strictEq (get task "status") (VStr "completed")
  then (total, inProgress, completed + 1)
  else (total, inProgress + 1, completed).

(** [Math.round((completed / total) * 100)] in double precision. *)
Definition percentage (completed total : Z) : Z :=
  Math_round (PrimFloat.mul (PrimFloat.div (toFloat completed) (toFloat total))
                            (toFloat 100)).

(** The body shared by [getStats] and [calculateStats]. *)
Definition statsOf (tasks : list Obj) : Stats :=
  let '(total, inProgress, completed) := fold_left countTask tasks (0, 0, 0) in
  {| total := total;
     inProgress := inProgress;
     completed := completed;
     completionRate := if 0 <? total then percentage completed total else 0 |}.

(** ** The React state container (TaskContext) *)

Module TaskContext.

Record State := mkState {
  tasks : list Obj;
  filters : Obj;
  sortBy : JsVal
}.

Definition withTasks (state : State) (l : list Obj) : State :=
  {| tasks := l; filters := filters state; sortBy := sortBy state |}.

Definition withFilters (state : State) (f : Obj) : State :=
  {| tasks := tasks state; filters := f; sortBy := sortBy state |}.

Definition withSortBy (state : State) (v : JsVal) : State :=
  {| tasks := tasks state; filters := filters state; sortBy := v |}.

Definition initialState : State :=
  {| tasks := [];
     filters := obj [("status", VStr "all"); ("priority", VStr "all");
                     ("searchTerm", VStr "")];
     sortBy := VStr "date" |}.

Module ACTION_TYPES.
Definition SET_TASKS : JsVal := VStr "SET_TASKS".
Definition ADD_TASK : JsVal := VStr "ADD_TASK".
Definition UPDATE_TASK : JsVal := VStr "UPDATE_TASK".
Definition DELETE_TASK : JsVal := VStr "DELETE_TASK".
Definition TOGGLE_TASK : JsVal := VStr "TOGGLE_TASK".
Definition SET_FILTER : JsVal := VStr "SET_FILTER".
Definition SET_SORT : JsVal := VStr "SET_SORT".
Definition CLEAR_COMPLETED : JsVal := VStr "CLEAR_COMPLETED".

Definition all : list JsVal :=
  [SET_TASKS; ADD_TASK; UPDATE_TASK; DELETE_TASK; TOGGLE_TASK;
   SET_FILTER; SET_SORT; CLEAR_COMPLETED].
End ACTION_TYPES.

(** The payload shapes that the provider's dispatchers build. *)
Inductive Payload :=
| PNothing
| PValue (v : JsVal)
| PObject (o : Obj)
| PTasks (l : list Obj)
| PUpdate (id : JsVal) (updates : Obj)
| PFilter (filterType : string) (value : JsVal).

(** An action object: [type] is whatever value the caller put there. *)
Record Action := mkAction {
  type : JsVal;
  payload : Payload
}.

(** The record written by TOGGLE_TASK for a matching task. *)
Definition toggled (env : Env) (task : Obj) : Obj :=
  let wasCompleted := strictEq (get task "status") (VStr "completed") in
  <["completedAt" := if wasCompleted then VNull else VStr (isoNow env)]>
    (<["status" := if wasCompleted then VStr "pending" else VStr "completed"]>
       task).

(** [taskReducer state action].  The switch compares [action.type] with the
    eight constants in order and falls to [default] otherwise.  A recognised
    type with a payload of a shape other than the one its dispatcher builds
    is not covered by this embedding: the result is [None] there. *)
Definition taskReducer (env : Env) (state : State) (action : Action)
  : option State :=
  if strictEq (type action) ACTION_TYPES.SET_TASKS then
    match payload action with
    | PTasks l => Some (withTasks state l)
    | _ => None
    end
  else if strictEq (type action) ACTION_TYPES.ADD_TASK then
    match payload action with
    | PObject draft =>
        let newId := dateNow env + random1000 env in
        Some (withTasks state
                (tasks state ++
                 [ <["status" := VStr "pending"]>
                     (<["id" := VNum newId]> draft) ]))
    | _ => None
    end
  else if strictEq (type action) ACTION_TYPES.UPDATE_TASK then
    match payload action with
    | PUpdate id updates =>
        Some (withTasks state
                (map (fun task =>
                        if strictEq (get task "id") id
                        then spread task updates
                        else task)
                     (tasks state)))
    | _ => None
    end
  else if strictEq (type action) ACTION_TYPES.DELETE_TASK then
    match payload action with
    | PValue id =>
        Some (withTasks state
                (filter (fun task => negb (strictEq (get task "id") id))
                        (tasks state)))
    | _ => None
    end
  else if strictEq (type action) ACTION_TYPES.TOGGLE_TASK then
    match payload action with
    | PValue id =>
        Some (withTasks state
                (map (fun task =>
                        if strictEq (get task "id") id
                        then toggled env task
                        else task)
                     (tasks state)))
    | _ => None
    end
  else if strictEq (type action) ACTION_TYPES.SET_FILTER then
    match payload action with
    | PFilter filterType value =>
        Some (withFilters state (<[filterType := value]> (filters state)))
    | _ => None
    end
  else if strictEq (type action) ACTION_TYPES.SET_SORT then
    match payload action with
    | PValue v => Some (withSortBy state v)
    | _ => None
    end
  else if strictEq (type action) ACTION_TYPES.CLEAR_COMPLETED then
    Some (withTasks state
            (filter (fun task =>
                       negb (strictEq (get task "status") (VStr "completed")))
                    (tasks state)))
  else Some state.

(** The action objects built by the functions of the context value. *)
Definition setTasks (l : list Obj) : Action :=
  mkAction ACTION_TYPES.SET_TASKS (PTasks l).
Definition addTask (task : Obj) : Action :=
  mkAction ACTION_TYPES.ADD_TASK (PObject task).
Definition updateTask (id : JsVal) (updates : Obj) : Action :=
  mkAction ACTION_TYPES.UPDATE_TASK (PUpdate id updates).
Definition deleteTask (id : JsVal) : Action :=
  mkAction ACTION_TYPES.DELETE_TASK (PValue id).
Definition toggleTask (id : JsVal) : Action :=
  mkAction ACTION_TYPES.TOGGLE_TASK (PValue id).
Definition setFilter (filterType : string) (value : JsVal) : Action :=
  mkAction ACTION_TYPES.SET_FILTER (PFilter filterType value).
Definition setSort (v : JsVal) : Action :=
  mkAction ACTION_TYPES.SET_SORT (PValue v).
Definition clearCompleted : Action :=
  mkAction ACTION_TYPES.CLEAR_COMPLETED PNothing.

(** Dispatching a sequence of actions, each with the surroundings it runs
    in. *)
Fixpoint dispatchAll (state : State) (steps : list (Env * Action))
  : option State :=
  match steps with
  | [] => Some state
  | (env, action) :: rest =>
      match taskReducer env state action with
      | Some state' => dispatchAll state' rest
      | None => None
      end
  end.

Definition getSampleTasks : list Obj :=
  [ obj [("id", VNum 1);
         ("title", VStr "Fix authentication bug in login flow");
         ("description", VStr "Users are experiencing issues logging in with OAuth providers. Need to debug the callback handling.");
         ("priority", VStr "high");
         ("status", VStr "pending");
         ("dueDate", VStr "2024-12-25");
         ("createdAt", VStr "2024-12-20T00:00:00.000Z")];
    obj [("id", VNum 2);
         ("title", VStr "Update API documentation");
         ("description", VStr "Add examples for the new endpoints and update the authentication section.");
         ("priority", VStr "medium");
         ("status", VStr "pending");
         ("dueDate", VStr "2024-12-28");
         ("createdAt", VStr "2024-12-21T00:00:00.000Z")];
    obj [("id", VNum 3);
         ("title", VStr "Refactor user service tests");
         ("description", VStr "Clean up test code and add missing edge cases for better coverage.");
         ("priority", VStr "low");
         ("status", VStr "pending");
         ("dueDate", VStr "2025-01-05");
         ("createdAt", VStr "2024-12-22T00:00:00.000Z")];
    obj [("id", VNum 4);
         ("title", VStr "Implement user profile page");
         ("description", VStr "Create responsive profile page with edit functionality and avatar upload.");
         ("priority", VStr "high");
         ("status", VStr "completed");
         ("dueDate", VStr "2024-12-20");
         ("completedAt", VStr "2024-12-20T00:00:00.000Z");
         ("createdAt", VStr "2024-12-15T00:00:00.000Z")] ].

Definition sampleState : State := withTasks initialState getSampleTasks.

(** The derived views of the context value. *)
Definition getFilteredTasks `{Host} (state : State) : option (list Obj) :=
  filterAndSort (tasks state) (filters state) (sortBy state).

Definition getStats (state : State) : Stats := statsOf (tasks state).

(** [localStorage]: a slot holds the JSON text of an array of task records;
    the text is represented by the array it denotes, an absent slot
    ([getItem] returning [null]) by [None]. *)
Abbreviation Storage := (gmap string (list Obj)).

Definition storageKey : string := "taskmaster-react-tasks".

(** The mount effect: the action it dispatches. *)
Definition loadEffect (localStorage : Storage) : Action :=
  match localStorage !! storageKey with
  | Some stored => setTasks stored
  | None => setTasks getSampleTasks
  end.

(** The effect that depends on [state.tasks]. *)
Definition saveEffect (state : State) (localStorage : Storage) : Storage :=
  if (0 <? length (tasks state))%nat
  then <[storageKey := tasks state]> localStorage
  else localStorage.

(** The reducer branches that build a new task array, so that the effect
    depending on [state.tasks] runs again. *)
Definition rebuildsTasks (action : Action) : bool :=
  bool_decide (type action ∈
    [ACTION_TYPES.SET_TASKS; ACTION_TYPES.ADD_TASK; ACTION_TYPES.UPDATE_TASK;
     ACTION_TYPES.DELETE_TASK; ACTION_TYPES.TOGGLE_TASK;
     ACTION_TYPES.CLEAR_COMPLETED]).

(** The provider between two renders: its reducer state and the storage. *)
Definition Provider : Type := State * Storage.

(** Mounting: both effects run on the initial state, then the dispatched
    SET_TASKS is reduced and the save effect runs on the new task array. *)
Definition mount (env : Env) (localStorage : Storage) : option Provider :=
  let action := loadEffect localStorage in
  let localStorage := saveEffect initialState localStorage in
  match taskReducer env initialState action with
  | Some state => Some (state, saveEffect state localStorage)
  | None => None
  end.

Definition dispatch (env : Env) (p : Provider) (action : Action)
  : option Provider :=
  match taskReducer env (fst p) action with
  | Some state =>
      Some (state,
            if rebuildsTasks action then saveEffect state (snd p) else snd p)
  | None => None
  end.

End TaskContext.

(** ** The vanilla application (app.js) *)

Module App.

Record AppState := mkAppState {
  tasks : list Obj;
  filters : Obj;
  sortBy : JsVal;
  currentEditingTaskId : JsVal
}.

Definition withTasks (s : AppState) (l : list Obj) : AppState :=
  {| tasks := l; filters := filters s; sortBy := sortBy s;
     currentEditingTaskId := currentEditingTaskId s |}.

(** The global [AppState] object and the browser storage.  Slots hold task
    arrays as in [TaskContext.Storage]; [setItemThrows] tells whether
    [localStorage.setItem] throws (quota exceeded, storage disabled). *)
Record World := mkWorld {
  appState : AppState;
  localStorage : gmap string (list Obj);
  setItemThrows : bool
}.

Inductive Outcome (A : Type) :=
| Returned (a : A)
| Thrown (error : string).
Arguments Returned {A} a.
Arguments Thrown {A} error.

(** Statements: they read and write the world and return or throw. *)
Definition M (A : Type) : Type := World → Outcome A * World.

Definition ret {A : Type} (a : A) : M A := fun w => (Returned a, w).

Definition bind {A B : Type} (m : M A) (k : A → M B) : M B :=
  fun w =>
    match m w with
    | (Returned a, w') => k a w'
    | (Thrown e, w') => (Thrown e, w')
    end.

Notation "x ←' m ;; k" := (bind m (fun x => k))
  (at level 100, m at next level, right associativity).
Notation "m ;;' k" := (bind m (fun _ => k))
  (at level 100, right associativity).

Definition readTasks : M (list Obj) :=
  fun w => (Returned (tasks (appState w)), w).

Definition writeTasks (l : list Obj) : M unit :=
  fun w =>
    (Returned tt,
     {| appState := withTasks (appState w) l;
        localStorage := localStorage w;
        setItemThrows := setItemThrows w |}).

Definition storageKey : string := "taskmaster-tasks".

(** [localStorage.setItem(key, JSON.stringify(value))] *)
Definition setItem (key : string) (value : list Obj) : M unit :=
  fun w =>
    if setItemThrows w then (Thrown "QuotaExceededError", w)
    else (Returned tt,
          {| appState := appState w;
             localStorage := <[key := value]> (localStorage w);
             setItemThrows := setItemThrows w |}).

Definition saveTasks : M unit :=
  l ←' readTasks ;; setItem storageKey l.

Definition loadTasks : M unit :=
  fun w =>
    match localStorage w !! storageKey with
    | Some stored => writeTasks stored w
    | None => (writeTasks TaskContext.getSampleTasks ;;' saveTasks) w
    end.

(** [{ id: Date.now(), ...taskData, status: 'pending',
       createdAt: new Date().toISOString() }] *)
Definition newTaskOf (env : Env) (taskData : Obj) : Obj :=
  <["createdAt" := VStr (isoNow env)]>
    (<["status" := VStr "pending"]>
       (spread {["id" := VNum (dateNow env)]} taskData)).

Definition createTask (env : Env) (taskData : Obj) : M Obj :=
  let newTask := newTaskOf env taskData in
  l ←' readTasks ;;
  writeTasks (l ++ [newTask]) ;;'
  saveTasks ;;'
  ret newTask.

(** [tasks.findIndex(task => task.id === taskId)], [None] for -1. *)
Fixpoint findIndex (taskId : JsVal) (l : list Obj) : option nat :=
  match l with
  | [] => None
  | task :: rest =>
      if strictEq (get task "id") taskId then Some 0%nat
      else S <$> findIndex taskId rest
  end.

(** Returns the updated task, or [None] for [null]. *)
Definition updateTask (taskId : JsVal) (updates : Obj) : M (option Obj) :=
  l ←' readTasks ;;
  match findIndex taskId l with
  | None => ret None
  | Some index =>
      match l !! index with
      | None => ret None
      | Some task =>
          let l' := <[index := spread task updates]> l in
          writeTasks l' ;;'
          saveTasks ;;'
          ret (l' !! index)
      end
  end.

Definition deleteTask (taskId : JsVal) : M bool :=
  l ←' readTasks ;;
  let initialLength := length l in
  let l' := filter (fun task => negb (strictEq (get task "id") taskId)) l in
  writeTasks l' ;;'
  if negb (length l' =? initialLength)%nat
  then saveTasks ;;' ret true
  else ret false.

Definition toggleTaskCompletion (env : Env) (taskId : JsVal) : M unit :=
  l ←' readTasks ;;
  match find (fun t => strictEq (get t "id") taskId) l with
  | None => ret tt
  | Some task =>
      if strictEq (get task "status") (VStr "completed") then
        updateTask taskId
          (obj [("status", VStr "pending"); ("completedAt", VNull)]) ;;'
        ret tt
      else
        updateTask taskId
          (obj [("status", VStr "completed");
                ("completedAt", VStr (isoNow env))]) ;;'
        ret tt
  end.

Definition clearCompletedTasks : M unit :=
  l ←' readTasks ;;
  writeTasks
    (filter (fun task =>
               negb (strictEq (get task "status") (VStr "completed"))) l) ;;'
  saveTasks.

Definition sortTasks `{Host} (tasks : list Obj) (sortBy : JsVal)
  : option (list Obj) :=
  sortBySwitch sortBy tasks.

Definition getFilteredTasks `{Host} (s : AppState) : option (list Obj) :=
  filterAndSort (tasks s) (filters s) (sortBy s).

Definition calculateStats (s : AppState) : Stats := statsOf (tasks s).

(** The five mutations of the data layer. *)
Inductive Mutation :=
| Create (taskData : Obj)
| Update (taskId : JsVal) (updates : Obj)
| Delete (taskId : JsVal)
| Toggle (taskId : JsVal)
| ClearCompleted.

Definition perform (env : Env) (m : Mutation) : M unit :=
  match m with
  | Create taskData => createTask env taskData ;;' ret tt
  | Update taskId updates => updateTask taskId updates ;;' ret tt
  | Delete taskId => deleteTask taskId ;;' ret tt
  | Toggle taskId => toggleTaskCompletion env taskId
  | ClearCompleted => clearCompletedTasks
  end.

End App.

(** ** Two concrete hosts

    They share a parser of ISO calendar dates ("YYYY-MM-DD", read as UTC
    midnight) and a code-unit comparison of strings, and differ in the
    engine of [arraySort]. *)

Definition digit (c : ascii) : option Z :=
  let n := Z.of_nat (nat_of_ascii c) in
  if (48 <=? n) && (n <=? 57) then Some (n - 48) else None.

Fixpoint digits (acc : Z) (s : string) : option Z :=
  match s with
  | EmptyString => Some acc
  | String c s' =>
      match digit c with
      | Some d => digits (10 * acc + d) s'
      | None => None
      end
  end.

(** Days between 1970-01-01 and the given day of the Gregorian calendar. *)
Definition daysFromCivil (y m d : Z) : Z :=
  let y := if m <=? 2 then y - 1 else y in
  let era := y / 400 in
  let yoe := y - era * 400 in
  let mp := (m + 9) mod 12 in
  let doy := (153 * mp + 2) / 5 + d - 1 in
  let doe := yoe * 365 + yoe / 4 - yoe / 100 + doy in
  era * 146097 + doe - 719468.

Definition isoDateParse (s : string) : option Z :=
  if (String.length s =? 10)%nat
     && String.eqb (substring 4 1 s) "-" && String.eqb (substring 7 1 s) "-"
  then
    match digits 0 (substring 0 4 s), digits 0 (substring 5 2 s),
          digits 0 (substring 8 2 s) with
    | Some y, Some m, Some d =>
        if (1 <=? m) && (m <=? 12) && (1 <=? d) && (d <=? 31)
        then Some (daysFromCivil y m d * 86400000)
        else None
    | _, _, _ => None
    end
  else None.

Definition codeUnitCompare (a b : string) : Z :=
  match String.compare a b with
  | Lt => -1
  | Eq => 0
  | Gt => 1
  end.

Definition hostInsertedFirst : Host :=
  mkHost InsertedFirst codeUnitCompare isoDateParse.

Definition hostInsertedSecond : Host :=
  mkHost InsertedSecond codeUnitCompare isoDateParse.

(** ** Predicates of the specification *)

(** [status == completed] exactly when [completedAt] is present and not
    null. *)
Definition completionConsistent (task : Obj) : Prop :=
  get task "status" = VStr "completed" ↔ isSet (get task "completedAt") = true.

Definition storeConsistent (state : TaskContext.State) : Prop :=
  Forall completionConsistent (TaskContext.tasks state).

(** A patch that leaves [status] and [completedAt] alone, or sets both in
    agreement. *)
Definition patchKeepsCompletion (updates : Obj) : Prop :=
  (updates !! "status" = None ∧ updates !! "completedAt" = None) ∨
  (is_Some (updates !! "status") ∧ is_Some (updates !! "completedAt") ∧
   completionConsistent updates).

(** Actions that cannot separate [status] from [completedAt]: every action
    but an ADD whose draft carries a [completedAt], an UPDATE whose patch
    sets one of the two fields without the other, and a SET_TASKS of
    records that are not consistent themselves. *)
Definition keepsCompletion (action : TaskContext.Action) : Prop :=
  match TaskContext.payload action with
  | TaskContext.PTasks l =>
      TaskContext.type action = TaskContext.ACTION_TYPES.SET_TASKS →
      Forall completionConsistent l
  | TaskContext.PObject draft =>
      TaskContext.type action = TaskContext.ACTION_TYPES.ADD_TASK →
      isSet (get draft "completedAt") = false
  | TaskContext.PUpdate _ updates =>
      TaskContext.type action = TaskContext.ACTION_TYPES.UPDATE_TASK →
      patchKeepsCompletion updates
  | _ => True
  end.

(** Whether the embedding covers the action (see [taskReducer]): this
    depends on the action alone. *)
Definition covered (action : TaskContext.Action) : bool :=
  match TaskContext.taskReducer (mkEnv 0 0 "") TaskContext.initialState action
  with
  | Some _ => true
  | None => false
  end.

Definition ids (l : list Obj) : list JsVal := map (fun task => get task "id") l.

(** ** Inputs used in the examples *)

(** Two moments three milliseconds apart, with their random draws. *)
Definition env1 : Env := mkEnv 1735000000000 417 "2024-12-24T00:26:40.000Z".
Definition env2 : Env := mkEnv 1735000000003 414 "2024-12-24T00:26:40.003Z".

Definition buyMilk : Obj :=
  obj [("title", VStr "Buy milk"); ("priority", VStr "low")].

(** ** Further predicates *)

(** Actions that cannot make two records share an id, whatever the store:
    every action but ADD (whose id comes from the clock and the random
    draw), an UPDATE whose patch carries an [id], and a SET_TASKS of records
    whose ids are not distinct. *)
Definition keepsIds (action : TaskContext.Action) : Prop :=
  match TaskContext.payload action with
  | TaskContext.PTasks l =>
      TaskContext.type action = TaskContext.ACTION_TYPES.SET_TASKS →
      NoDup (ids l)
  | TaskContext.PObject _ =>
      TaskContext.type action ≠ TaskContext.ACTION_TYPES.ADD_TASK
  | TaskContext.PUpdate _ updates =>
      TaskContext.type action = TaskContext.ACTION_TYPES.UPDATE_TASK →
      updates !! "id" = None
  | _ => True
  end.


(** The slot of the vanilla application holds the current task array. *)
Definition inSync (w : App.World) : Prop :=
  App.localStorage w !! App.storageKey = Some (App.tasks (App.appState w)).

(** The reducer action that corresponds to a mutation of the data layer. *)
Definition asAction (m : App.Mutation) : TaskContext.Action :=
  match m with
  | App.Create taskData => TaskContext.addTask taskData
  | App.Update taskId updates => TaskContext.updateTask taskId updates
  | App.Delete taskId => TaskContext.deleteTask taskId
  | App.Toggle taskId => TaskContext.toggleTask taskId
  | App.ClearCompleted => TaskContext.clearCompleted
  end.

(** The [AppState] object as the script creates it. *)
Definition initialAppState : App.AppState :=
  App.mkAppState []
    (obj [("status", VStr "all"); ("priority", VStr "all");
          ("searchTerm", VStr "")])
    (VStr "date") VNull.

(** Opening the page again: a fresh [AppState], the storage as it was left,
    then [loadTasks]. *)
Definition reload (w : App.World) : App.Outcome unit * App.World :=
  App.loadTasks
    (App.mkWorld initialAppState (App.localStorage w) (App.setItemThrows w)).

(** JSON text has no place for [undefined]: a record can be read back as it
    was written when none of its properties holds [undefined]. *)
Definition jsonExact (task : Obj) : Prop := ∀ k, task !! k ≠ Some VUndef.

(** The world once the task array has been replaced in memory only, and
    once it has also been written to the slot. *)
Definition inMemory (w : App.World) (l : list Obj) : App.World :=
  App.mkWorld (App.withTasks (App.appState w) l) (App.localStorage w)
    (App.setItemThrows w).

Definition persisted (w : App.World) (l : list Obj) : App.World :=
  App.mkWorld (App.withTasks (App.appState w) l)
    (<[App.storageKey := l]> (App.localStorage w)) (App.setItemThrows w).

(** ** The views: ranks and filters *)

(** The rank of a record under [priorityOrder]; 0 when [priorityOrder] has
    no entry for its priority. *)
Definition priorityRank (task : Obj) : Z :=
  default 0 (priorityOrder (get task "priority")).

(** The records with a given priority, in their order. *)
Definition withPriority (p : string) (l : list Obj) : list Obj :=
  filter (fun task => get task "priority" = VStr p) l.

(** A key within the three ranks of [priorityOrder]. *)
Definition inRank {A : Type} (key : A → Z) (a : A) : Prop := 1 ≤ key a ≤ 3.

(** What each of the three filters of [getFilteredTasks] lets through. *)
Definition passesStatus (filters task : Obj) : Prop :=
  get filters "status" = VStr "all" ∨
  get task "status" = get filters "status".

Definition passesPriority (filters task : Obj) : Prop :=
  get filters "priority" = VStr "all" ∨
  get task "priority" = get filters "priority".


(** Dispatching a sequence of actions to the provider, the save effect
    running after each (see [TaskContext.dispatch]). *)
Fixpoint dispatchSteps (p : TaskContext.Provider)
    (steps : list (Env * TaskContext.Action)) : option TaskContext.Provider :=
  match steps with
  | [] => Some p
  | (env, action) :: rest =>
      match TaskContext.dispatch env p action with
      | Some p' => dispatchSteps p' rest
      | None => None
      end
  end.

(** A provider with tasks has exactly these tasks in its slot. *)
Definition slotFollowsTasks (p : TaskContext.Provider) : Prop :=
  TaskContext.tasks (fst p) ≠ [] →
  snd p !! TaskContext.storageKey = Some (TaskContext.tasks (fst p)).

(** ** Fetching tasks (app.js, [fetchTasksFromAPI]) *)

Module Fetch.

(** The page around the store: whether the loading state is displayed and
    the message of the error state, if it is displayed. *)
Record Page := mkPage {
  world : App.World;
  loadingShown : bool;
  errorShown : option string
}.

Definition withWorld (p : Page) (w : App.World) : Page :=
  mkPage w (loadingShown p) (errorShown p).

Definition showLoading (p : Page) : Page :=
  mkPage (world p) true (errorShown p).

Definition showError (message : string) (p : Page) : Page :=
  mkPage (world p) (loadingShown p) (Some message).

(** How the request ended: [fetch] rejected with an error of that message,
    or a response arrived with its status and a body; reading the body
    either fails with an error of that message ([response.json()] rejects,
    or the value is not an array) or gives the array of todo objects. *)
Inductive Response :=
| Rejected (message : string)
| Responded (status : Z) (body : string + list Obj).

(** [response.ok] *)
Definition ok (status : Z) : bool := (200 <=? status) && (status <=? 299).

(** What the callback of [todos.map] reads from its surroundings for one
    todo: the date part of [now + random * 7 days] and the two readings of
    [new Date().toISOString()]. *)
Record TodoEnv := mkTodoEnv {
  dueDateIso : string;
  createdIso : string;
  completedIso : string
}.

Definition transformTodo (e : TodoEnv) (todo : Obj) : Obj :=
  obj [("id", get todo "id");
       ("title", get todo "title");
       ("description", VStr "Fetched from API");
       ("priority", VStr "medium");
       ("status", if truthy (get todo "completed")
                  then VStr "completed" else VStr "pending");
       ("dueDate", VStr (dueDateIso e));
       ("createdAt", VStr (createdIso e));
       ("completedAt", if truthy (get todo "completed")
                       then VStr (completedIso e) else VNull)].

Definition transformedTasks (envs : nat → TodoEnv) (todos : list Obj)
  : list Obj :=
  imap (fun i todo => transformTodo (envs i) todo) todos.

(** The [catch] block. *)
Definition failed (message : string) (p : Page) : Page :=
  showError ("Failed to fetch tasks: " ++ message) p.

Section WithRender.

(** [render()]: it rebuilds the page from the store and may throw. *)
Variable render : Page → App.Outcome unit * Page.

(** The function up to its first [await]. *)
Definition fetchStarted (p : Page) : Page := showLoading p.

(** The rest of the function, run when the request has ended. *)
Definition fetchSettled (envs : nat → TodoEnv) (r : Response) (p : Page)
  : Page :=
  match r with
  | Rejected message => failed message p
  | Responded status body =>
      if negb (ok status)
      then failed ("HTTP error! status: " ++ pretty status) p
      else
        match body with
        | inl message => failed message p
        | inr todos =>
            let transformed := transformedTasks envs todos in
            match App.bind App.readTasks
                    (fun l => App.bind (App.writeTasks (l ++ transformed))
                                (fun _ => App.saveTasks)) (world p) with
            | (App.Thrown e, w') => failed e (withWorld p w')
            | (App.Returned _, w') =>
                match render (withWorld p w') with
                | (App.Thrown e, p') => failed e p'
                | (App.Returned _, p') => p'
                end
            end
        end
  end.

End WithRender.

(** A [render] that only hides the loading and error states, as
    [renderTasks] does first. *)
Definition renderStates (p : Page) : App.Outcome unit * Page :=
  (App.Returned tt, mkPage (world p) false None).

End Fetch.

(** The message of the error with which the request fails before the store
    is touched, if it does. *)
Definition requestFailure (r : Fetch.Response) : option string :=
  match r with
  | Fetch.Rejected message => Some message
  | Fetch.Responded status body =>
      if negb (Fetch.ok status)
      then Some ("HTTP error! status: " ++ pretty status)%string
      else match body with
           | inl message => Some message
           | inr _ => None
           end
  end.

(** * Properties *)

Section ObjectFacts.

Lemma strictEq_false (a b : JsVal) : a ≠ b → strictEq a b = false.
Proof. intros H. unfold strictEq. by apply bool_decide_eq_false. Qed.

Lemma strictEq_true (a b : JsVal) : strictEq a b = true ↔ a = b.
Proof. unfold strictEq. apply bool_decide_eq_true. Qed.

Lemma strictEq_refl (a : JsVal) : strictEq a a = true.
Proof. by apply strictEq_true. Qed.

Lemma get_insert_eq (o : Obj) k v : get (<[k := v]> o) k = v.
Proof. unfold get. by rewrite lookup_insert_eq. Qed.

Lemma get_insert_ne (o : Obj) k k' v : k ≠ k' → get (<[k := v]> o) k' = get o k'.
Proof. intros H. unfold get. by rewrite lookup_insert_ne. Qed.

Lemma get_spread_over (base over : Obj) k :
  is_Some (over !! k) → get (spread base over) k = get over k.
Proof.
  intros [v Hv]. unfold get, spread.
  by rewrite (lookup_union_Some_l over base k v Hv), Hv.
Qed.

Lemma get_spread_base (base over : Obj) k :
  over !! k = None → get (spread base over) k = get base k.
Proof. intros Hk. unfold get, spread. by rewrite lookup_union_r. Qed.

End ObjectFacts.

Module TaskContextFacts.
Import TaskContext.

(** C10: an action whose [type] is none of the eight recognised constants
    is handled by the [default] branch: the reducer returns a result (no
    error) and that result is the store it was given, with the same task
    sequence, filters and sort criterion. *)
Theorem reducer_unrecognized_passthrough
    (env : Env) (state : State) (action : Action) :
  type action ∉ ACTION_TYPES.all →
  taskReducer env state action = Some state.
Proof.
  intros Hnot. unfold ACTION_TYPES.all in Hnot.
  repeat (apply not_elem_of_cons in Hnot as [? Hnot]).
  unfold taskReducer.
  by rewrite !strictEq_false.
Qed.

Lemma reducer_unrecognized_passthrough_witness :
  taskReducer (mkEnv 1735000000000 417 "2024-12-24T00:26:40.000Z")
    sampleState (mkAction (VStr "RESET") PNothing) = Some sampleState.
Proof.
  apply reducer_unrecognized_passthrough.
  unfold ACTION_TYPES.all. intros H.
  repeat (apply elem_of_cons in H as [H|H]; [discriminate H|]).
  by apply elem_of_nil in H.
Defined.

(** *** Coverage *)

Lemma covered_total (action : Action) :
  covered action = true →
  ∀ env state, is_Some (taskReducer env state action).
Proof.
  unfold covered, taskReducer. intros Hc env state.
  repeat match goal with
  | |- context [strictEq (type action) ?c] =>
      destruct (strictEq (type action) c)
  end;
  destruct (payload action); simpl in *; eauto; discriminate.
Qed.

Lemma dispatchAll_total (steps : list (Env * Action)) :
  Forall (fun step => covered (snd step) = true) steps →
  ∀ state, is_Some (dispatchAll state steps).
Proof.
  induction 1 as [|[env action] steps Hc _ IH]; intros state; simpl.
  - eauto.
  - destruct (covered_total action Hc env state) as [state' ->]. apply IH.
Qed.

(** *** The completion invariant *)

Lemma toggled_consistent (env : Env) (task : Obj) :
  completionConsistent (toggled env task).
Proof.
  unfold completionConsistent, toggled.
  rewrite get_insert_eq, get_insert_ne, get_insert_eq by done.
  destruct (strictEq (get task "status") (VStr "completed")); simpl;
    split; intros; done.
Qed.

Lemma spread_consistent (task updates : Obj) :
  patchKeepsCompletion updates →
  completionConsistent task →
  completionConsistent (spread task updates).
Proof.
  unfold completionConsistent.
  intros [[Hs Hc]|(Hs & Hc & Hu)] Ht.
  - by rewrite !get_spread_base.
  - by rewrite !get_spread_over.
Qed.

Lemma Forall_filter_keep {A : Type} (P : A → Prop) (Q : A → Prop)
    `{∀ x, Decision (Q x)} (l : list A) :
  Forall P l → Forall P (filter Q l).
Proof.
  intros Hl. apply Forall_forall. intros x Hx.
  apply list_elem_of_filter in Hx as [_ Hx].
  rewrite Forall_forall in Hl. by apply Hl.
Qed.

Lemma reducer_keeps_consistent (env : Env) (state state' : State)
    (action : Action) :
  keepsCompletion action →
  storeConsistent state →
  taskReducer env state action = Some state' →
  storeConsistent state'.
Proof.
  unfold keepsCompletion, storeConsistent, taskReducer.
  intros Hk Hs.
  repeat match goal with
  | |- context [strictEq (type action) ?c] =>
      let E := fresh "E" in
      destruct (strictEq (type action) c) eqn:E;
      [apply strictEq_true in E|]
  end;
  destruct (payload action) as [|v|draft|l|id updates|ft fv] eqn:Hp;
  intros [= <-]; simpl; auto.
  - (* ADD_TASK *)
    apply Forall_app. split; [done|]. apply Forall_singleton.
    unfold completionConsistent.
    rewrite get_insert_eq, !get_insert_ne, (Hk E0) by done.
    split; intros; done.
  - (* UPDATE_TASK *)
    apply Forall_map. eapply Forall_impl; [exact Hs|].
    intros task Ht; simpl.
    destruct (strictEq (get task "id") id); [|done].
    apply spread_consistent; auto.
  - (* DELETE_TASK *)
    by apply Forall_filter_keep.
  - (* TOGGLE_TASK *)
    apply Forall_map. eapply Forall_impl; [exact Hs|].
    intros task Ht; simpl.
    destruct (strictEq (get task "id") v); [|done].
    apply toggled_consistent.
  - by apply Forall_filter_keep.
  - by apply Forall_filter_keep.
  - by apply Forall_filter_keep.
  - by apply Forall_filter_keep.
  - by apply Forall_filter_keep.
  - by apply Forall_filter_keep.
Qed.

Lemma consistent_by_evaluation (task : Obj) :
  bool_decide (get task "status" = VStr "completed")
    = isSet (get task "completedAt") →
  completionConsistent task.
Proof.
  unfold completionConsistent. intros H.
  rewrite <- H, bool_decide_eq_true. done.
Qed.

Lemma sample_consistent : storeConsistent sampleState.
Proof.
  unfold storeConsistent. change (tasks sampleState) with getSampleTasks.
  unfold getSampleTasks.
  repeat (apply List.Forall_cons;
          [apply consistent_by_evaluation; vm_compute; reflexivity|]).
  apply List.Forall_nil.
Qed.

Lemma initial_consistent : storeConsistent initialState.
Proof. apply List.Forall_nil. Qed.

(** C1 (amended): every store reached from the empty or the sample store by
    covered actions that keep [status] and [completedAt] together (all
    TOGGLE, DELETE, CLEAR_COMPLETED, SET_FILTER, SET_SORT and unrecognised
    actions; ADD of a draft without [completedAt]; UPDATE with a patch that
    names neither field or sets both in agreement; SET_TASKS of consistent
    records) exists and satisfies, for every record, [status == completed]
    iff [completedAt] is present and non-null. *)
Theorem reachable_store_consistent
    (start : State) (steps : list (Env * Action)) :
  start = initialState ∨ start = sampleState →
  Forall (fun step => covered (snd step) = true) steps →
  Forall (fun step => keepsCompletion (snd step)) steps →
  ∃ state, dispatchAll start steps = Some state ∧ storeConsistent state.
Proof.
  intros Hstart Hcov Hkeep.
  assert (Hs : storeConsistent start)
    by (destruct Hstart as [-> | ->];
        [apply initial_consistent | apply sample_consistent]).
  clear Hstart. revert start Hs.
  induction steps as [|[env action] steps IH]; intros start Hs; simpl.
  - eauto.
  - apply Forall_cons in Hcov as [Hc Hcov].
    apply Forall_cons in Hkeep as [Hk Hkeep]. simpl in *.
    destruct (covered_total action Hc env start) as [state' Hstep].
    rewrite Hstep. apply IH; auto.
    eapply reducer_keeps_consistent; eauto.
Qed.

Lemma reachable_store_consistent_witness :
  ∃ state,
    dispatchAll sampleState
      [(env1, addTask (obj [("title", VStr "Buy milk");
                            ("priority", VStr "low")]));
       (env2, toggleTask (VNum 4));
       (env2, updateTask (VNum 2) (obj [("title", VStr "Update the docs")]));
       (env2, toggleTask (VNum 1))] = Some state
    ∧ storeConsistent state.
Proof.
  apply reachable_store_consistent.
  - by right.
  - repeat (apply List.Forall_cons; [vm_compute; reflexivity|]).
    apply List.Forall_nil.
  - apply List.Forall_cons.
    { intros _. vm_compute. reflexivity. }
    apply List.Forall_cons; [exact I|].
    apply List.Forall_cons.
    { intros _. left. split; vm_compute; reflexivity. }
    apply List.Forall_cons; [exact I|]. apply List.Forall_nil.
Defined.

(** C1 (counterexample): UPDATE(1, {status: completed}) on the sample store
    leaves record 1 completed without a [completedAt]. *)
Lemma update_breaks_completion_invariant :
  ∃ state,
    dispatchAll sampleState
      [(env1, updateTask (VNum 1) (obj [("status", VStr "completed")]))]
      = Some state
    ∧ ¬ storeConsistent state.
Proof.
  eexists. split; [reflexivity|].
  intros H. apply Forall_cons in H as [H _].
  unfold completionConsistent in H.
  assert (E : get (spread (obj [("id", VNum 1);
         ("title", VStr "Fix authentication bug in login flow");
         ("description", VStr "Users are experiencing issues logging in with OAuth providers. Need to debug the callback handling.");
         ("priority", VStr "high");
         ("status", VStr "pending");
         ("dueDate", VStr "2024-12-25");
         ("createdAt", VStr "2024-12-20T00:00:00.000Z")])
        (obj [("status", VStr "completed")])) "status" = VStr "completed")
    by (vm_compute; reflexivity).
  apply H in E. vm_compute in E. discriminate E.
Qed.
(** *** ADD_TASK *)

Lemma add_step (env : Env) (state : State) (draft : Obj) :
  taskReducer env state (addTask draft)
  = Some (withTasks state
            (tasks state ++
             [ <["status" := VStr "pending"]>
                 (<["id" := VNum (dateNow env + random1000 env)]> draft) ])).
Proof. reflexivity. Qed.

(** First half of C2: each ADD makes the store one record longer. *)
Lemma adds_count (steps : list (Env * Action)) :
  Forall (fun step => ∃ draft, snd step = addTask draft) steps →
  ∀ state, ∃ state',
    dispatchAll state steps = Some state' ∧
    length (tasks state') = (length (tasks state) + length steps)%nat.
Proof.
  induction 1 as [|[env action] steps [draft Hd] _ IH]; intros state.
  - exists state. split; [done|]. simpl. lia.
  - simpl in Hd. subst action.
    cbn [dispatchAll]. rewrite add_step.
    destruct (IH (withTasks state
      (tasks state ++
       [ <["status" := VStr "pending"]>
           (<["id" := VNum (dateNow env + random1000 env)]> draft) ])))
      as (state' & -> & Hlen).
    exists state'. split; [done|].
    rewrite Hlen. cbn [tasks withTasks]. rewrite length_app. simpl. lia.
Qed.

(** C2 (the code at the failing input): two ADDs whose clock reading plus
    random offset coincide (the same millisecond and the same draw, or a
    later millisecond and a smaller draw) leave a store that is two records
    longer and in which the two new records share their id. *)
Theorem add_twice_same_id
    (state : State) (e1 e2 : Env) (d1 d2 : Obj) :
  dateNow e1 + random1000 e1 = dateNow e2 + random1000 e2 →
  ∃ state',
    dispatchAll state [(e1, addTask d1); (e2, addTask d2)] = Some state' ∧
    length (tasks state') = (length (tasks state) + 2)%nat ∧
    ¬ NoDup (ids (tasks state')).
Proof.
  intros Hid. eexists. split; [reflexivity|].
  cbn [tasks withTasks]. split.
  - rewrite !length_app. simpl. lia.
  - unfold ids. rewrite <- app_assoc, map_app. cbn [map app].
    do 2 (rewrite get_insert_ne, get_insert_eq by done). rewrite Hid.
    intros Hnd. apply NoDup_app in Hnd as (_ & _ & Hnd).
    apply NoDup_cons in Hnd as [Hnd _].
    apply Hnd. apply list_elem_of_singleton. reflexivity.
Qed.

Lemma add_twice_same_id_witness :
  ∃ state',
    dispatchAll sampleState [(env1, addTask buyMilk); (env2, addTask buyMilk)]
      = Some state' ∧
    length (tasks state') = (length (tasks sampleState) + 2)%nat ∧
    ¬ NoDup (ids (tasks state')).
Proof. apply add_twice_same_id. reflexivity. Defined.

(** C3 (amended): ADD appends exactly one record to the end of the task
    sequence and leaves filters and sort criterion alone; the record has
    status pending and the id minted by the reducer (clock reading plus
    random offset), whatever the draft says for these two fields, and every
    other field, [createdAt] and [completedAt] included, is the draft's:
    present exactly when the draft has it. *)
Theorem add_appends_pending_record
    (env : Env) (state : State) (draft : Obj) :
  ∃ record,
    taskReducer env state (addTask draft)
      = Some (withTasks state (tasks state ++ [record])) ∧
    get record "status" = VStr "pending" ∧
    get record "id" = VNum (dateNow env + random1000 env) ∧
    ∀ k, k ≠ "id" → k ≠ "status" → record !! k = draft !! k.
Proof.
  eexists. split; [apply add_step|].
  rewrite get_insert_eq, get_insert_ne, get_insert_eq by done.
  repeat split. intros k Hid Hst.
  by rewrite !lookup_insert_ne.
Qed.

(** C3 (counterexample): ADD({title: "Buy milk", priority: "low"}) on the
    empty store yields a record without [createdAt]; and a draft that
    carries a [completedAt] yields a pending record that has it. *)
Lemma add_does_not_stamp_createdAt :
  (∃ record,
     taskReducer env1 initialState (addTask buyMilk)
       = Some (withTasks initialState [record]) ∧
     record !! "createdAt" = None ∧
     get record "createdAt" ≠ VStr (isoNow env1)) ∧
  (∃ record,
     taskReducer env1 initialState
       (addTask (<["completedAt" := VStr "2024-12-01T00:00:00.000Z"]> buyMilk))
       = Some (withTasks initialState [record]) ∧
     get record "status" = VStr "pending" ∧
     isSet (get record "completedAt") = true).
Proof.
  split; eexists; (split; [reflexivity|]); split; vm_compute; done.
Qed.

(** *** TOGGLE_TASK *)

Lemma toggle_step (env : Env) (state : State) (x : JsVal) :
  taskReducer env state (toggleTask x)
  = Some (withTasks state
            (map (fun task =>
                    if strictEq (get task "id") x
                    then toggled env task else task)
                 (tasks state))).
Proof. reflexivity. Qed.

Lemma toggled_id (env : Env) (task : Obj) :
  get (toggled env task) "id" = get task "id".
Proof. unfold toggled. by rewrite !get_insert_ne. Qed.

Lemma toggled_pending (env : Env) (task : Obj) :
  get task "status" ≠ VStr "completed" →
  get (toggled env task) "status" = VStr "completed" ∧
  get (toggled env task) "completedAt" = VStr (isoNow env).
Proof.
  intros Hs. unfold toggled. rewrite (strictEq_false _ _ Hs).
  by rewrite get_insert_eq, get_insert_ne, get_insert_eq.
Qed.

Lemma toggled_completed (env : Env) (task : Obj) :
  get task "status" = VStr "completed" →
  get (toggled env task) "status" = VStr "pending" ∧
  get (toggled env task) "completedAt" = VNull.
Proof.
  intros Hs. unfold toggled. rewrite Hs, strictEq_refl.
  by rewrite get_insert_eq, get_insert_ne, get_insert_eq.
Qed.

Lemma lookup_map_toggle (f : Obj → Obj) (l : list Obj) (i : nat) :
  map f l !! i = f <$> (l !! i).
Proof.
  revert i. induction l as [|t l IH]; intros [|i]; simpl; auto.
Qed.

(** C5 (amended): for a record with id x, TOGGLE(x) twice returns [status]
    to its value (pending or completed).  A pending record becomes completed
    with [completedAt] the time of the first TOGGLE, and the second TOGGLE
    makes it pending again with [completedAt] null.  A completed record
    becomes pending with [completedAt] null, and the second TOGGLE makes it
    completed with [completedAt] the time of the second TOGGLE (not the
    timestamp it had). *)
Theorem toggle_twice
    (state : State) (x : JsVal) (e1 e2 : Env) (i : nat) (task : Obj) :
  tasks state !! i = Some task →
  get task "id" = x →
  ∃ state1 state2 t1 t2,
    taskReducer e1 state (toggleTask x) = Some state1 ∧
    taskReducer e2 state1 (toggleTask x) = Some state2 ∧
    tasks state1 !! i = Some t1 ∧
    tasks state2 !! i = Some t2 ∧
    (get task "status" = VStr "pending" →
       get t1 "status" = VStr "completed" ∧
       get t1 "completedAt" = VStr (isoNow e1) ∧
       get t2 "status" = VStr "pending" ∧
       get t2 "completedAt" = VNull) ∧
    (get task "status" = VStr "completed" →
       get t1 "status" = VStr "pending" ∧
       get t1 "completedAt" = VNull ∧
       get t2 "status" = VStr "completed" ∧
       get t2 "completedAt" = VStr (isoNow e2)).
Proof.
  intros Hi Hx.
  exists (withTasks state
            (map (fun task => if strictEq (get task "id") x
                              then toggled e1 task else task)
                 (tasks state))).
  eexists. exists (toggled e1 task), (toggled e2 (toggled e1 task)).
  split; [apply toggle_step|].
  split; [apply toggle_step|].
  cbn [tasks withTasks].
  rewrite !lookup_map_toggle, Hi. cbn [fmap option_fmap option_map].
  rewrite Hx, strictEq_refl, toggled_id, Hx, strictEq_refl.
  split; [done|]. split; [done|]. split.
  - intros Hs.
    assert (Hne : get task "status" ≠ VStr "completed") by (rewrite Hs; done).
    destruct (toggled_pending e1 task Hne) as [H1 H2].
    destruct (toggled_completed e2 _ H1) as [H3 H4]. done.
  - intros Hs.
    destruct (toggled_completed e1 task Hs) as [H1 H2].
    assert (Hne : get (toggled e1 task) "status" ≠ VStr "completed")
      by (rewrite H1; done).
    destruct (toggled_pending e2 _ Hne) as [H3 H4]. done.
Qed.

Lemma toggle_twice_witness :
  ∃ state1 state2 t1 t2,
    taskReducer env1 sampleState (toggleTask (VNum 1)) = Some state1 ∧
    taskReducer env2 state1 (toggleTask (VNum 1)) = Some state2 ∧
    tasks state1 !! 0%nat = Some t1 ∧
    tasks state2 !! 0%nat = Some t2 ∧
    (VStr "pending" = VStr "pending" →
       get t1 "status" = VStr "completed" ∧
       get t1 "completedAt" = VStr (isoNow env1) ∧
       get t2 "status" = VStr "pending" ∧
       get t2 "completedAt" = VNull) ∧
    (VStr "pending" = VStr "completed" →
       get t1 "status" = VStr "pending" ∧
       get t1 "completedAt" = VNull ∧
       get t2 "status" = VStr "completed" ∧
       get t2 "completedAt" = VStr (isoNow env2)).
Proof.
  exact (toggle_twice sampleState (VNum 1) env1 env2 0%nat
           (obj [("id", VNum 1);
                 ("title", VStr "Fix authentication bug in login flow");
                 ("description", VStr "Users are experiencing issues logging in with OAuth providers. Need to debug the callback handling.");
                 ("priority", VStr "high");
                 ("status", VStr "pending");
                 ("dueDate", VStr "2024-12-25");
                 ("createdAt", VStr "2024-12-20T00:00:00.000Z")])
           eq_refl eq_refl).
Defined.

(** C5 (counterexample): record 4 of the sample store is completed with
    [completedAt] 2024-12-20; after TOGGLE(4) twice it is completed again,
    but [completedAt] is the time of the second TOGGLE. *)
Lemma toggle_twice_restamps_completedAt :
  ∃ state before after,
    dispatchAll sampleState
      [(env1, toggleTask (VNum 4)); (env2, toggleTask (VNum 4))]
      = Some state ∧
    tasks sampleState !! 3%nat = Some before ∧
    tasks state !! 3%nat = Some after ∧
    get before "id" = VNum 4 ∧
    get before "completedAt" = VStr "2024-12-20T00:00:00.000Z" ∧
    get after "completedAt" = VStr "2024-12-24T00:26:40.003Z" ∧
    get after "completedAt" ≠ get before "completedAt".
Proof.
  do 3 eexists. split; [reflexivity|].
  split; [reflexivity|]. split; [reflexivity|].
  split; [vm_compute; reflexivity|].
  split; [vm_compute; reflexivity|].
  split; [vm_compute; reflexivity|].
  vm_compute. discriminate.
Qed.

End TaskContextFacts.

(** ** Further properties of the reducer *)

Module ReducerFacts.
Import TaskContext TaskContextFacts.

(** *** Helpers on [filter] and [map] *)

Lemma filter_all_pass {A : Type} (P : A → Prop) `{∀ x, Decision (P x)}
    (l : list A) :
  Forall P l → filter P l = l.
Proof.
  induction 1 as [|x l Hx _ IH]; [done|].
  by rewrite filter_cons_True, IH.
Qed.


Lemma map_unmatched (f : Obj → Obj) (x : JsVal) (l : list Obj) :
  x ∉ ids l →
  map (fun task => if strictEq (get task "id") x then f task else task) l = l.
Proof.
  induction l as [|t l IH]; simpl; [done|].
  intros Hx. apply not_elem_of_cons in Hx as [Hne Hx].
  rewrite strictEq_false by congruence. by rewrite IH.
Qed.

Lemma ids_map_same (f : Obj → Obj) (l : list Obj) :
  (∀ t, get (f t) "id" = get t "id") → ids (map f l) = ids l.
Proof.
  intros Hf. unfold ids. rewrite map_map. apply map_ext. intros t. apply Hf.
Qed.

Lemma ids_filter_NoDup (P : Obj → Prop) `{∀ x, Decision (P x)} (l : list Obj) :
  NoDup (ids l) → NoDup (ids (filter P l)).
Proof.
  induction l as [|t l IH]; simpl; [done|].
  intros Hnd. apply NoDup_cons in Hnd as [Hin Hnd].
  destruct (decide (P t)).
  - rewrite filter_cons_True by done. simpl. apply NoDup_cons. split; auto.
    intros Hin'. apply Hin. unfold ids in *.
    apply list_elem_of_In, in_map_iff in Hin' as (t' & <- & Ht').
    apply list_elem_of_In, in_map_iff. exists t'. split; [done|].
    apply list_elem_of_In. apply list_elem_of_In in Ht'.
    by apply list_elem_of_filter in Ht' as [_ ?].
  - rewrite filter_cons_False by done. auto.
Qed.

Lemma withTasks_same (state : State) : withTasks state (tasks state) = state.
Proof. by destruct state. Qed.

(** *** DELETE_TASK *)

Lemma delete_step (env : Env) (state : State) (id : JsVal) :
  taskReducer env state (deleteTask id)
  = Some (withTasks state
            (filter (fun task => negb (strictEq (get task "id") id))
                    (tasks state))).
Proof. reflexivity. Qed.


(** *** Ids that are not in the store *)

(** UPDATE, TOGGLE and DELETE of an id that no record has return the store
    as it was. *)
Theorem absent_id_is_noop
    (env : Env) (state : State) (id : JsVal) (updates : Obj) :
  id ∉ ids (tasks state) →
  taskReducer env state (updateTask id updates) = Some state ∧
  taskReducer env state (toggleTask id) = Some state ∧
  taskReducer env state (deleteTask id) = Some state.
Proof.
  intros Hid. repeat split.
  - change (taskReducer env state (updateTask id updates))
      with (Some (withTasks state
             (map (fun task => if strictEq (get task "id") id
                               then spread task updates else task)
                  (tasks state)))).
    by rewrite map_unmatched, withTasks_same.
  - rewrite toggle_step. by rewrite map_unmatched, withTasks_same.
  - rewrite delete_step. rewrite filter_all_pass, withTasks_same; [done|].
    apply Forall_forall. intros task Hin.
    apply negb_True, Is_true_false, strictEq_false.
    intros Heq. apply Hid. unfold ids.
    apply list_elem_of_In, in_map_iff. exists task.
    split; [done|]. by apply list_elem_of_In.
Qed.

Lemma absent_id_is_noop_witness :
  taskReducer env1 sampleState
    (updateTask (VNum 9) (obj [("title", VStr "Nine")])) = Some sampleState ∧
  taskReducer env1 sampleState (toggleTask (VNum 9)) = Some sampleState ∧
  taskReducer env1 sampleState (deleteTask (VNum 9)) = Some sampleState.
Proof.
  apply absent_id_is_noop.
  intros H. vm_compute in H.
  repeat (apply elem_of_cons in H as [H|H]; [discriminate H|]).
  by apply elem_of_nil in H.
Defined.

(** *** Unique ids *)

(** Once the ids of the store are distinct, every action that [keepsIds]
    (TOGGLE, DELETE, CLEAR_COMPLETED, SET_FILTER, SET_SORT, unrecognised
    actions, UPDATE with a patch that has no [id], SET_TASKS of records with
    distinct ids) leaves them distinct. *)
Theorem ids_stay_unique
    (env : Env) (state state' : State) (action : Action) :
  NoDup (ids (tasks state)) →
  keepsIds action →
  taskReducer env state action = Some state' →
  NoDup (ids (tasks state')).
Proof.
  unfold keepsIds, taskReducer. intros Hnd Hk.
  repeat match goal with
  | |- context [strictEq (type action) ?c] =>
      let E := fresh "E" in
      destruct (strictEq (type action) c) eqn:E;
      [apply strictEq_true in E|]
  end;
  destruct (payload action) as [|v|draft|l|id updates|ft fv] eqn:Hp;
  intros [= <-]; cbn [tasks withTasks withFilters withSortBy]; auto;
  try (by apply ids_filter_NoDup); try done.
  - (* UPDATE_TASK *)
    rewrite ids_map_same; [done|]. intros t.
    destruct (strictEq (get t "id") id); [|done].
    apply get_spread_base. auto.
  - (* TOGGLE_TASK *)
    rewrite ids_map_same; [done|]. intros t.
    destruct (strictEq (get t "id") v); [|done]. apply toggled_id.
Qed.

Lemma ids_stay_unique_witness :
  NoDup (ids (tasks (withTasks sampleState
    (map (fun task => if strictEq (get task "id") (VNum 2)
                      then toggled env1 task else task)
         (tasks sampleState))))).
Proof.
  apply (ids_stay_unique env1 sampleState _ (toggleTask (VNum 2))).
  - vm_compute. repeat (apply NoDup_cons_2; [
      intros H;
      repeat (apply elem_of_cons in H as [H|H]; [discriminate H|]);
      by apply elem_of_nil in H|]).
    apply NoDup_nil_2.
  - exact I.
  - reflexivity.
Defined.

(** *** CLEAR_COMPLETED *)



(** *** What an action leaves alone *)

(** The filters change only under SET_FILTER, the sort criterion only under
    SET_SORT, and SET_FILTER, SET_SORT and unrecognised actions leave the
    task sequence as it is. *)
Theorem reducer_frame
    (env : Env) (state state' : State) (action : Action) :
  taskReducer env state action = Some state' →
  (type action ≠ ACTION_TYPES.SET_FILTER → filters state' = filters state) ∧
  (type action ≠ ACTION_TYPES.SET_SORT → sortBy state' = sortBy state) ∧
  (type action = ACTION_TYPES.SET_FILTER ∨
   type action = ACTION_TYPES.SET_SORT ∨
   type action ∉ ACTION_TYPES.all → tasks state' = tasks state).
Proof.
  unfold taskReducer.
  repeat match goal with
  | |- context [strictEq (type action) ?c] =>
      let E := fresh "E" in
      destruct (strictEq (type action) c) eqn:E;
      [apply strictEq_true in E|]
  end;
  destruct (payload action) as [|v|draft|l|id updates|ft fv] eqn:Hp;
  intros [= <-]; cbn [tasks filters sortBy withTasks withFilters withSortBy];
  (split; [|split]); try done;
  intros [Hf|[Hs|Hn]]; try done;
  try (rewrite E in Hf; discriminate Hf);
  try (rewrite E in Hs; discriminate Hs);
  try (rewrite E0 in Hf; discriminate Hf);
  try (rewrite E0 in Hs; discriminate Hs);
  try (rewrite E1 in Hf; discriminate Hf);
  try (rewrite E1 in Hs; discriminate Hs);
  try (rewrite E2 in Hf; discriminate Hf);
  try (rewrite E2 in Hs; discriminate Hs);
  try (rewrite E3 in Hf; discriminate Hf);
  try (rewrite E3 in Hs; discriminate Hs);
  try (rewrite E6 in Hf; discriminate Hf);
  try (rewrite E6 in Hs; discriminate Hs);
  try (exfalso; apply Hn; unfold ACTION_TYPES.all;
       first [rewrite E | rewrite E0 | rewrite E1 | rewrite E2
             | rewrite E3 | rewrite E6];
       set_solver).
Qed.

Lemma reducer_frame_witness :
  let state' := withFilters sampleState
                  (<["status" := VStr "completed"]> (filters sampleState)) in
  (type (setFilter "status" (VStr "completed")) ≠ ACTION_TYPES.SET_FILTER →
   filters state' = filters sampleState) ∧
  (type (setFilter "status" (VStr "completed")) ≠ ACTION_TYPES.SET_SORT →
   sortBy state' = sortBy sampleState) ∧
  (type (setFilter "status" (VStr "completed")) = ACTION_TYPES.SET_FILTER ∨
   type (setFilter "status" (VStr "completed")) = ACTION_TYPES.SET_SORT ∨
   type (setFilter "status" (VStr "completed")) ∉ ACTION_TYPES.all →
   tasks state' = tasks sampleState).
Proof.
  intros state'.
  exact (reducer_frame env1 sampleState state'
           (setFilter "status" (VStr "completed")) eq_refl).
Defined.

End ReducerFacts.

(** ** The data layer of app.js *)

Module AppFacts.
Import App.

(** *** [findIndex] and [find] *)

Lemma findIndex_None (x : JsVal) (l : list Obj) :
  findIndex x l = None ↔ x ∉ ids l.
Proof.
  induction l as [|t l IH]; simpl.
  - split; [intros _; apply not_elem_of_nil|done].
  - rewrite not_elem_of_cons.
    destruct (strictEq (get t "id") x) eqn:E.
    + apply strictEq_true in E. split; [done|]. intros [Hne _]. congruence.
    + destruct (findIndex x l); simpl.
      * split; [done|]. intros [_ Hx]. by apply IH in Hx.
      * split; [|done]. intros _. split; [|by apply IH].
        intros ->. by rewrite strictEq_refl in E.
Qed.

Lemma findIndex_Some (x : JsVal) (l : list Obj) (i : nat) :
  findIndex x l = Some i →
  ∃ t, l !! i = Some t ∧ get t "id" = x ∧
       find (fun t => strictEq (get t "id") x) l = Some t ∧
       x ∉ ids (take i l).
Proof.
  revert i. induction l as [|t l IH]; intros i; simpl; [done|].
  destruct (strictEq (get t "id") x) eqn:E.
  - intros [= <-]. exists t. apply strictEq_true in E.
    repeat split; try done. simpl. apply not_elem_of_nil.
  - destruct (findIndex x l) as [j|] eqn:Hj; simpl; [|done].
    intros [= <-]. destruct (IH j eq_refl) as (t' & Hl & Hid & Hf & Hpre).
    exists t'. repeat split; try done. simpl.
    apply not_elem_of_cons. split; [|done].
    intros ->. by rewrite strictEq_refl in E.
Qed.

Lemma find_None_findIndex (x : JsVal) (l : list Obj) :
  findIndex x l = None →
  find (fun t => strictEq (get t "id") x) l = None.
Proof.
  induction l as [|t l IH]; simpl; [done|].
  destruct (strictEq (get t "id") x); [done|].
  destruct (findIndex x l); simpl; [done|]. auto.
Qed.

(** With distinct ids, replacing the first record that has the id is the
    same as mapping over all records that have it. *)
Lemma insert_first_is_map (f : Obj → Obj) (x : JsVal) (l : list Obj)
    (i : nat) (t : Obj) :
  NoDup (ids l) →
  findIndex x l = Some i →
  l !! i = Some t →
  <[i := f t]> l
  = map (fun task => if strictEq (get task "id") x then f task else task) l.
Proof.
  revert i. induction l as [|t0 l IH]; intros i Hnd; simpl; [done|].
  apply NoDup_cons in Hnd as [Hin Hnd].
  destruct (strictEq (get t0 "id") x) eqn:E.
  - intros [= <-] [= <-]. simpl. f_equal.
    apply strictEq_true in E. subst x.
    symmetry. by apply ReducerFacts.map_unmatched.
  - destruct (findIndex x l) as [j|] eqn:Hj; simpl; [|done].
    intros [= <-] Hl. simpl. f_equal. by apply IH.
Qed.

Lemma length_filter_same {A : Type} (P : A → Prop) `{∀ x, Decision (P x)}
    (l : list A) :
  length (filter P l) = length l → filter P l = l.
Proof.
  induction l as [|x l IH]; [done|].
  destruct (decide (P x)).
  - rewrite filter_cons_True by done. simpl. intros [= Hl]. by rewrite IH.
  - rewrite filter_cons_False by done. simpl. intros Hl.
    pose proof (length_filter P l). lia.
Qed.

Lemma toggle_patch_completed (task : Obj) :
  spread task (obj [("status", VStr "pending"); ("completedAt", VNull)])
  = <["completedAt" := VNull]> (<["status" := VStr "pending"]> task).
Proof.
  unfold spread, obj. simpl.
  rewrite <- !insert_union_l, (left_id_L ∅ (∪)).
  by apply insert_insert_ne.
Qed.

Lemma toggle_patch_pending (env : Env) (task : Obj) :
  spread task (obj [("status", VStr "completed");
                    ("completedAt", VStr (isoNow env))])
  = <["completedAt" := VStr (isoNow env)]>
      (<["status" := VStr "completed"]> task).
Proof.
  unfold spread, obj. simpl.
  rewrite <- !insert_union_l, (left_id_L ∅ (∪)).
  by apply insert_insert_ne.
Qed.

Lemma toggle_patch (env : Env) (task : Obj) :
  (if strictEq (get task "status") (VStr "completed")
   then spread task (obj [("status", VStr "pending"); ("completedAt", VNull)])
   else spread task (obj [("status", VStr "completed");
                          ("completedAt", VStr (isoNow env))]))
  = TaskContext.toggled env task.
Proof.
  unfold TaskContext.toggled.
  destruct (strictEq (get task "status") (VStr "completed")).
  - apply toggle_patch_completed.
  - apply toggle_patch_pending.
Qed.

(** *** What the mutations do to the in-memory list *)

Lemma updateTask_tasks (taskId : JsVal) (updates : Obj) (w : World) :
  tasks (appState (snd (updateTask taskId updates w)))
  = match findIndex taskId (tasks (appState w)) with
    | Some index =>
        match tasks (appState w) !! index with
        | Some task => <[index := spread task updates]> (tasks (appState w))
        | None => tasks (appState w)
        end
    | None => tasks (appState w)
    end.
Proof.
  unfold updateTask, bind, readTasks. simpl.
  destruct (findIndex taskId (tasks (appState w))) as [index|]; [|done].
  destruct (tasks (appState w) !! index) as [task|]; [|done].
  unfold writeTasks, saveTasks, bind, readTasks, setItem, ret. simpl.
  unfold inMemory, persisted. cbv zeta. destruct (setItemThrows w); reflexivity.
Qed.

(** *** The mutations, run *)

Lemma save_run (w : World) (l : list Obj) :
  (writeTasks l ;;' saveTasks) w
  = if setItemThrows w then (Thrown "QuotaExceededError", inMemory w l)
    else (Returned tt, persisted w l).
Proof.
  unfold bind, writeTasks, saveTasks, bind, readTasks, setItem. simpl.
  unfold inMemory, persisted. cbv zeta. destruct (setItemThrows w); reflexivity.
Qed.

Lemma createTask_run (env : Env) (taskData : Obj) (w : World) :
  createTask env taskData w
  = let l := tasks (appState w) ++ [newTaskOf env taskData] in
    if setItemThrows w then (Thrown "QuotaExceededError", inMemory w l)
    else (Returned (newTaskOf env taskData), persisted w l).
Proof.
  unfold createTask, bind, writeTasks, saveTasks, bind, readTasks, setItem, ret.
  simpl. unfold inMemory, persisted. cbv zeta.
  destruct (setItemThrows w); reflexivity.
Qed.

Lemma updateTask_run (taskId : JsVal) (updates : Obj) (w : World) :
  updateTask taskId updates w
  = match findIndex taskId (tasks (appState w)) with
    | None => (Returned None, w)
    | Some index =>
        match tasks (appState w) !! index with
        | None => (Returned None, w)
        | Some task =>
            let l := <[index := spread task updates]> (tasks (appState w)) in
            if setItemThrows w
            then (Thrown "QuotaExceededError", inMemory w l)
            else (Returned (l !! index), persisted w l)
        end
    end.
Proof.
  unfold updateTask, bind, readTasks. simpl.
  destruct (findIndex taskId (tasks (appState w))) as [index|]; [|done].
  destruct (tasks (appState w) !! index) as [task|]; [|done].
  unfold writeTasks, saveTasks, bind, readTasks, setItem, ret. simpl.
  unfold inMemory, persisted. cbv zeta. destruct (setItemThrows w); reflexivity.
Qed.

Lemma deleteTask_run (taskId : JsVal) (w : World) :
  deleteTask taskId w
  = let l := filter (fun task => negb (strictEq (get task "id") taskId))
                    (tasks (appState w)) in
    if (length l =? length (tasks (appState w)))%nat
    then (Returned false, inMemory w l)
    else if setItemThrows w
         then (Thrown "QuotaExceededError", inMemory w l)
         else (Returned true, persisted w l).
Proof.
  unfold deleteTask, bind, readTasks, writeTasks. simpl.
  destruct (_ =? _)%nat; simpl; [done|].
  unfold saveTasks, bind, readTasks, setItem, ret. simpl.
  unfold inMemory, persisted. cbv zeta. destruct (setItemThrows w); reflexivity.
Qed.

Lemma clearCompletedTasks_run (w : World) :
  clearCompletedTasks w
  = let l := filter (fun task =>
                       negb (strictEq (get task "status") (VStr "completed")))
                    (tasks (appState w)) in
    if setItemThrows w then (Thrown "QuotaExceededError", inMemory w l)
    else (Returned tt, persisted w l).
Proof.
  unfold clearCompletedTasks, bind, readTasks, writeTasks, saveTasks, bind,
    readTasks, setItem. simpl.
  unfold inMemory, persisted. cbv zeta. destruct (setItemThrows w); reflexivity.
Qed.

Lemma toggleTaskCompletion_run (env : Env) (taskId : JsVal) (w : World) :
  toggleTaskCompletion env taskId w
  = match findIndex taskId (tasks (appState w)) with
    | None => (Returned tt, w)
    | Some index =>
        match tasks (appState w) !! index with
        | None => (Returned tt, w)
        | Some task =>
            let l := <[index := TaskContext.toggled env task]>
                       (tasks (appState w)) in
            if setItemThrows w
            then (Thrown "QuotaExceededError", inMemory w l)
            else (Returned tt, persisted w l)
        end
    end.
Proof.
  unfold toggleTaskCompletion, bind at 1, readTasks. cbn [fst snd].
  destruct (findIndex taskId (tasks (appState w))) as [index|] eqn:Hi.
  - destruct (findIndex_Some _ _ _ Hi) as (task & Hl & Hid & Hf & _).
    rewrite Hf, Hl. rewrite <- (toggle_patch env task).
    destruct (strictEq (get task "status") (VStr "completed"));
      unfold bind; rewrite updateTask_run, Hi, Hl; cbn zeta;
      unfold inMemory, persisted; destruct (setItemThrows w); reflexivity.
  - by rewrite (find_None_findIndex _ _ Hi).
Qed.

Lemma filter_all_pass_absent (x : JsVal) (l : list Obj) :
  x ∉ ids l →
  filter (fun task => negb (strictEq (get task "id") x)) l = l.
Proof.
  intros Hx. apply ReducerFacts.filter_all_pass, Forall_forall.
  intros task Hin. apply negb_True, Is_true_false, strictEq_false.
  intros Heq. apply Hx. unfold ids.
  apply list_elem_of_In, in_map_iff. exists task.
  split; [done|]. by apply list_elem_of_In.
Qed.

Lemma inMemory_same (w : World) : inMemory w (tasks (appState w)) = w.
Proof. by destruct w as [[] ? ?]. Qed.

End AppFacts.

Module DataLayerFacts.
Import App AppFacts.

Lemma bind_ret_tt {A : Type} (m : M A) (w : World) :
  (m ;;' ret tt) w
  = (match fst (m w) with
     | Returned _ => Returned tt
     | Thrown e => Thrown e
     end, snd (m w)).
Proof. unfold bind, ret. by destruct (m w) as [[a|e] w']. Qed.

(** For update, delete, toggle and clear-completed, on a list whose ids are
    distinct, the data layer of app.js leaves in memory the task list that
    the reducer of the React application computes for the corresponding
    action, whether or not the save throws. *)
Theorem data_layer_agrees_with_reducer
    (env : Env) (m : Mutation) (w : World) (state : TaskContext.State) :
  (∀ taskData, m ≠ Create taskData) →
  NoDup (ids (tasks (appState w))) →
  TaskContext.tasks state = tasks (appState w) →
  ∃ state',
    TaskContext.taskReducer env state (asAction m) = Some state' ∧
    TaskContext.tasks state' = tasks (appState (snd (perform env m w))).
Proof.
  intros Hm Hnd Hl. destruct m as [d|x u|x|x|]; simpl.
  - by destruct (Hm d).
  - eexists. split; [reflexivity|]. cbn [TaskContext.tasks TaskContext.withTasks].
    rewrite bind_ret_tt. cbn [snd]. rewrite updateTask_run, Hl.
    destruct (findIndex x (tasks (appState w))) as [i|] eqn:Hi.
    + destruct (findIndex_Some _ _ _ Hi) as (t & Hti & _).
      rewrite Hti. cbv zeta.
      rewrite <- (insert_first_is_map (fun t => spread t u) x _ i t) by done.
      by destruct (setItemThrows w).
    + apply findIndex_None in Hi.
      by rewrite ReducerFacts.map_unmatched.
  - eexists. split; [reflexivity|]. cbn [TaskContext.tasks TaskContext.withTasks].
    rewrite bind_ret_tt. cbn [snd]. rewrite deleteTask_run, Hl. cbv zeta.
    destruct (_ =? _)%nat; [done|]. by destruct (setItemThrows w).
  - eexists. split; [reflexivity|]. cbn [TaskContext.tasks TaskContext.withTasks].
    rewrite toggleTaskCompletion_run, Hl.
    destruct (findIndex x (tasks (appState w))) as [i|] eqn:Hi.
    + destruct (findIndex_Some _ _ _ Hi) as (t & Hti & _).
      rewrite Hti. cbv zeta.
      rewrite <- (insert_first_is_map (TaskContext.toggled env) x _ i t)
        by done.
      by destruct (setItemThrows w).
    + apply findIndex_None in Hi.
      by rewrite ReducerFacts.map_unmatched.
  - eexists. split; [reflexivity|]. cbn [TaskContext.tasks TaskContext.withTasks].
    rewrite clearCompletedTasks_run, Hl. cbv zeta.
    by destruct (setItemThrows w).
Qed.

Lemma data_layer_agrees_with_reducer_witness :
  ∃ state',
    TaskContext.taskReducer env1 TaskContext.sampleState
      (asAction (Toggle (VNum 4))) = Some state' ∧
    TaskContext.tasks state'
    = tasks (appState (snd (perform env1 (Toggle (VNum 4))
        (mkWorld (withTasks initialAppState TaskContext.getSampleTasks)
                 ∅ true)))).
Proof.
  apply data_layer_agrees_with_reducer.
  - intros taskData. discriminate.
  - vm_compute. repeat (apply NoDup_cons_2; [
      intros H;
      repeat (apply elem_of_cons in H as [H|H]; [discriminate H|]);
      by apply elem_of_nil in H|]).
    apply NoDup_nil_2.
  - reflexivity.
Defined.

(** While [setItem] works, every mutation returns normally and the slot
    keeps holding the task array that is in memory. *)
Theorem mutations_keep_slot_in_sync (env : Env) (m : Mutation) (w : World) :
  setItemThrows w = false →
  inSync w →
  fst (perform env m w) = Returned tt ∧
  inSync (snd (perform env m w)) ∧
  setItemThrows (snd (perform env m w)) = false.
Proof.
  intros Hok Hsync.
  assert (Hp : ∀ l, inSync (persisted w l))
    by (intros l; unfold inSync, persisted; simpl; apply lookup_insert_eq).
  destruct m as [d|x u|x|x|]; simpl.
  - rewrite bind_ret_tt, createTask_run, Hok. simpl. auto.
  - rewrite bind_ret_tt, updateTask_run.
    destruct (findIndex x (tasks (appState w))) as [i|]; [|by simpl].
    destruct (tasks (appState w) !! i); [|by simpl].
    rewrite Hok. simpl. auto.
  - rewrite bind_ret_tt, deleteTask_run. cbv zeta.
    destruct (_ =? _)%nat eqn:E.
    + apply Nat.eqb_eq, length_filter_same in E. rewrite E, inMemory_same.
      by simpl.
    + rewrite Hok. simpl. auto.
  - rewrite toggleTaskCompletion_run.
    destruct (findIndex x (tasks (appState w))) as [i|]; [|by simpl].
    destruct (tasks (appState w) !! i); [|by simpl].
    rewrite Hok. simpl. auto.
  - rewrite clearCompletedTasks_run, Hok. simpl. auto.
Qed.

Lemma mutations_keep_slot_in_sync_witness :
  let w := mkWorld (withTasks initialAppState TaskContext.getSampleTasks)
             {[storageKey := TaskContext.getSampleTasks]} false in
  fst (perform env1 (Delete (VNum 2)) w) = Returned tt ∧
  inSync (snd (perform env1 (Delete (VNum 2)) w)) ∧
  setItemThrows (snd (perform env1 (Delete (VNum 2)) w)) = false.
Proof.
  intros w. apply mutations_keep_slot_in_sync.
  - reflexivity.
  - unfold inSync, w. simpl. apply lookup_singleton_eq.
Defined.

(** [deleteTask] answers [true] exactly when some record had the id and the
    save went through; when no record has the id it answers [false] and
    leaves memory and storage exactly as they were; when the save throws,
    the records are already gone from memory. *)
Theorem deleteTask_reports (taskId : JsVal) (w : World) :
  deleteTask taskId w
  = let l := filter (fun task => negb (strictEq (get task "id") taskId))
                    (tasks (appState w)) in
    if bool_decide (taskId ∈ ids (tasks (appState w))) then
      if setItemThrows w then (Thrown "QuotaExceededError", inMemory w l)
      else (Returned true, persisted w l)
    else (Returned false, w).
Proof.
  rewrite deleteTask_run. cbv zeta.
  destruct (bool_decide _) eqn:Hin.
  - apply bool_decide_eq_true in Hin.
    unfold ids in Hin.
    apply list_elem_of_In, in_map_iff in Hin as (task & Hid & Hin).
    apply list_elem_of_In in Hin.
    assert (Hlt : (length (filter
              (fun task => negb (strictEq (get task "id") taskId))
              (tasks (appState w))) < length (tasks (appState w)))%nat).
    { eapply length_filter_lt; [exact Hin|].
      rewrite negb_True. intros Hn. apply Hn, Is_true_true, strictEq_true.
      done. }
    destruct (Nat.eqb_spec (length (filter
              (fun task => negb (strictEq (get task "id") taskId))
              (tasks (appState w)))) (length (tasks (appState w)))); [lia|done].
  - apply bool_decide_eq_false in Hin.
    rewrite filter_all_pass_absent by done.
    by rewrite Nat.eqb_refl, inMemory_same.
Qed.

(** [updateTask] on an id that some record has: the first record with that
    id, and only that position of the array, is replaced by the record
    merged with the patch; the merged record is what the call returns, and
    the slot receives the new array. *)
Theorem updateTask_replaces_first
    (taskId : JsVal) (updates : Obj) (w : World) :
  taskId ∈ ids (tasks (appState w)) →
  setItemThrows w = false →
  ∃ index task,
    tasks (appState w) !! index = Some task ∧
    get task "id" = taskId ∧
    (taskId ∉ ids (take index (tasks (appState w)))) ∧
    updateTask taskId updates w
    = (Returned (Some (spread task updates)),
       persisted w (<[index := spread task updates]> (tasks (appState w)))).
Proof.
  intros Hin Hok.
  destruct (findIndex taskId (tasks (appState w))) as [index|] eqn:Hi.
  - destruct (findIndex_Some _ _ _ Hi) as (task & Hl & Hid & _ & Hpre).
    exists index, task. repeat split; try done.
    rewrite updateTask_run, Hi, Hl, Hok. cbv zeta.
    rewrite list_lookup_insert_eq; [done|].
    by apply lookup_lt_Some in Hl.
  - apply findIndex_None in Hi. done.
Qed.

Lemma updateTask_replaces_first_witness :
  ∃ index task,
    TaskContext.getSampleTasks !! index = Some task ∧
    get task "id" = VNum 3 ∧
    (VNum 3 ∉ ids (take index TaskContext.getSampleTasks)) ∧
    updateTask (VNum 3) (obj [("priority", VStr "high")])
      (mkWorld (withTasks initialAppState TaskContext.getSampleTasks) ∅ false)
    = (Returned (Some (spread task (obj [("priority", VStr "high")]))),
       persisted
         (mkWorld (withTasks initialAppState TaskContext.getSampleTasks)
            ∅ false)
         (<[index := spread task (obj [("priority", VStr "high")])]>
            TaskContext.getSampleTasks)).
Proof.
  apply (updateTask_replaces_first (VNum 3) (obj [("priority", VStr "high")])
           (mkWorld (withTasks initialAppState TaskContext.getSampleTasks)
              ∅ false)).
  - vm_compute. apply list_elem_of_In. right. right. left. reflexivity.
  - reflexivity.
Defined.

(** [updateTask] and [toggleTaskCompletion] on an id that no record has
    return ([null], nothing) without touching memory or storage: nothing is
    saved. *)
Theorem absent_id_touches_nothing
    (env : Env) (taskId : JsVal) (updates : Obj) (w : World) :
  taskId ∉ ids (tasks (appState w)) →
  updateTask taskId updates w = (Returned None, w) ∧
  toggleTaskCompletion env taskId w = (Returned tt, w).
Proof.
  intros Hid. apply findIndex_None in Hid.
  by rewrite updateTask_run, toggleTaskCompletion_run, Hid.
Qed.

Lemma absent_id_touches_nothing_witness :
  let w := mkWorld (withTasks initialAppState TaskContext.getSampleTasks)
             ∅ true in
  updateTask (VNum 7) (obj [("title", VStr "Seven")]) w = (Returned None, w) ∧
  toggleTaskCompletion env1 (VNum 7) w = (Returned tt, w).
Proof.
  intros w. apply absent_id_touches_nothing.
  intros H. vm_compute in H.
  repeat (apply elem_of_cons in H as [H|H]; [discriminate H|]).
  by apply elem_of_nil in H.
Defined.

(** *** [loadTasks] *)

(** Opening the page again while the slot holds the task array of the last
    session restores exactly that array, the empty one included (the sample
    tasks come back only when the slot is absent), and writes nothing. *)
Theorem reload_restores (w : World) :
  inSync w →
  Forall jsonExact (tasks (appState w)) →
  ∃ w',
    reload w = (Returned tt, w') ∧
    tasks (appState w') = tasks (appState w) ∧
    localStorage w' = localStorage w.
Proof.
  unfold inSync, reload, loadTasks. intros Hs _. cbn [localStorage].
  rewrite Hs. eexists. split; [reflexivity|]. by simpl.
Qed.

Lemma reload_restores_witness :
  let w := snd (perform env1 ClearCompleted
             (mkWorld (withTasks initialAppState
                         (drop 3 TaskContext.getSampleTasks))
                      ∅ false)) in
  tasks (appState w) = [] ∧
  ∃ w',
    reload w = (Returned tt, w') ∧
    tasks (appState w') = tasks (appState w) ∧
    localStorage w' = localStorage w.
Proof.
  intros w. split; [reflexivity|]. apply reload_restores.
  - unfold inSync. reflexivity.
  - apply List.Forall_nil.
Defined.

(** The first run (no slot yet): the four sample tasks are put in memory
    and saved; if [setItem] throws, [loadTasks] throws with the samples in
    memory and the slot still absent. *)
Theorem first_run_seeds_samples (w : World) :
  localStorage w !! storageKey = None →
  reload w
  = let fresh := mkWorld initialAppState (localStorage w) (setItemThrows w) in
    if setItemThrows w
    then (Thrown "QuotaExceededError",
          inMemory fresh TaskContext.getSampleTasks)
    else (Returned tt, persisted fresh TaskContext.getSampleTasks).
Proof.
  intros Hnone. unfold reload, loadTasks. cbn [localStorage].
  rewrite Hnone. by rewrite save_run.
Qed.

Lemma first_run_seeds_samples_witness :
  reload (mkWorld initialAppState ∅ false)
  = (Returned tt,
     persisted (mkWorld initialAppState ∅ false) TaskContext.getSampleTasks).
Proof. exact (first_run_seeds_samples (mkWorld initialAppState ∅ false) eq_refl). Defined.

End DataLayerFacts.

Module UpdateFacts.
Import TaskContext TaskContextFacts.

(** UPDATE(id, patch) keeps the number and the positions of the records; a
    record with that id is replaced by the record merged with the patch (a
    field named by the patch takes the patch's value, any other field keeps
    its own), and a record with another id stays as it is. *)
Theorem update_merges_patch
    (env : Env) (state : State) (id : JsVal) (updates : Obj)
    (i : nat) (task : Obj) :
  tasks state !! i = Some task →
  ∃ state' task',
    taskReducer env state (updateTask id updates) = Some state' ∧
    length (tasks state') = length (tasks state) ∧
    tasks state' !! i = Some task' ∧
    (get task "id" ≠ id → task' = task) ∧
    (get task "id" = id →
     ∀ k, task' !! k = match updates !! k with
                       | Some v => Some v
                       | None => task !! k
                       end).
Proof.
  intros Hi.
  exists (withTasks state
            (map (fun task => if strictEq (get task "id") id
                              then spread task updates else task)
                 (tasks state))).
  eexists. split; [reflexivity|]. cbn [tasks withTasks].
  split; [apply length_map|].
  rewrite lookup_map_toggle, Hi. split; [reflexivity|]. split.
  - intros Hne. by rewrite strictEq_false.
  - intros ->. rewrite strictEq_refl. intros k. unfold spread.
    rewrite lookup_union. by destruct (updates !! k), (task !! k).
Qed.

Lemma update_merges_patch_witness :
  ∃ state' task',
    taskReducer env1 sampleState
      (updateTask (VNum 4) (obj [("title", VStr "Profile page")]))
      = Some state' ∧
    length (tasks state') = length (tasks sampleState) ∧
    tasks state' !! 3%nat = Some task' ∧
    (get (obj [("id", VNum 4);
         ("title", VStr "Implement user profile page");
         ("description", VStr "Create responsive profile page with edit functionality and avatar upload.");
         ("priority", VStr "high");
         ("status", VStr "completed");
         ("dueDate", VStr "2024-12-20");
         ("completedAt", VStr "2024-12-20T00:00:00.000Z");
         ("createdAt", VStr "2024-12-15T00:00:00.000Z")]) "id" ≠ VNum 4 →
     task' = obj [("id", VNum 4);
         ("title", VStr "Implement user profile page");
         ("description", VStr "Create responsive profile page with edit functionality and avatar upload.");
         ("priority", VStr "high");
         ("status", VStr "completed");
         ("dueDate", VStr "2024-12-20");
         ("completedAt", VStr "2024-12-20T00:00:00.000Z");
         ("createdAt", VStr "2024-12-15T00:00:00.000Z")]) ∧
    (get (obj [("id", VNum 4);
         ("title", VStr "Implement user profile page");
         ("description", VStr "Create responsive profile page with edit functionality and avatar upload.");
         ("priority", VStr "high");
         ("status", VStr "completed");
         ("dueDate", VStr "2024-12-20");
         ("completedAt", VStr "2024-12-20T00:00:00.000Z");
         ("createdAt", VStr "2024-12-15T00:00:00.000Z")]) "id" = VNum 4 →
     ∀ k, task' !! k
          = match obj [("title", VStr "Profile page")] !! k with
            | Some v => Some v
            | None =>
                obj [("id", VNum 4);
         ("title", VStr "Implement user profile page");
         ("description", VStr "Create responsive profile page with edit functionality and avatar upload.");
         ("priority", VStr "high");
         ("status", VStr "completed");
         ("dueDate", VStr "2024-12-20");
         ("completedAt", VStr "2024-12-20T00:00:00.000Z");
         ("createdAt", VStr "2024-12-15T00:00:00.000Z")] !! k
            end).
Proof.
  exact (update_merges_patch env1 sampleState (VNum 4)
           (obj [("title", VStr "Profile page")]) 3%nat _ eq_refl).
Defined.

End UpdateFacts.

(** ** Sorting *)

Section SortFacts.
Context {A : Type} (comparefn : A → A → option Num) (e : Engine).

Lemma insertFromRight_perm (item : A) (rprefix out : list A) :
  insertFromRight comparefn e item rprefix = Some out →
  out ≡ₚ item :: rprefix.
Proof.
  revert out. induction rprefix as [|other rest IH]; intros out; simpl.
  - by intros [= <-].
  - destruct (movesLeft comparefn e item other) as [[]|]; [| |done].
    + destruct (insertFromRight comparefn e item rest) as [out'|]; [|done].
      simpl. intros [= <-]. rewrite (IH out' eq_refl). apply Permutation_swap.
    + by intros [= <-].
Qed.

Lemma sortLoop_perm (rprefix rest out : list A) :
  sortLoop comparefn e rprefix rest = Some out →
  out ≡ₚ rprefix ++ rest.
Proof.
  revert rprefix out. induction rest as [|item rest IH]; intros rprefix out; simpl.
  - intros [= <-]. rewrite app_nil_r. symmetry. apply Permutation_rev.
  - destruct (insertFromRight comparefn e item rprefix) as [rprefix'|] eqn:Hi;
      [|done].
    intros Hs. rewrite (IH _ _ Hs), (insertFromRight_perm _ _ _ Hi).
    simpl. apply Permutation_middle.
Qed.

(** A comparison function that answers on the elements at hand. *)
Variable P : A → Prop.
Hypothesis comparefn_answers :
  ∀ a b, P a → P b → is_Some (comparefn a b).

Lemma movesLeft_answers (item other : A) :
  P item → P other → is_Some (movesLeft comparefn e item other).
Proof.
  intros Hi Ho. unfold movesLeft, order. destruct e.
  - destruct (comparefn_answers item other Hi Ho) as [[|z] ->]; simpl; eauto.
  - destruct (comparefn_answers other item Ho Hi) as [[|z] ->]; simpl; eauto.
Qed.

Lemma insertFromRight_answers (item : A) (rprefix : list A) :
  P item → Forall P rprefix →
  ∃ out, insertFromRight comparefn e item rprefix = Some out ∧ Forall P out.
Proof.
  intros Hi. induction 1 as [|other rest Ho Hrest IH]; simpl.
  - eexists. split; [done|]. by apply Forall_singleton.
  - destruct (movesLeft_answers item other Hi Ho) as [[] ->].
    + destruct IH as (out & -> & Hout). simpl. eexists. split; [done|].
      by apply List.Forall_cons.
    + eexists. split; [done|]. repeat apply List.Forall_cons; done.
Qed.

Lemma sortLoop_answers (rprefix rest : list A) :
  Forall P rprefix → Forall P rest →
  is_Some (sortLoop comparefn e rprefix rest).
Proof.
  intros Hp Hr. revert rprefix Hp.
  induction Hr as [|item rest Hi Hrest IH]; intros rprefix Hp; simpl.
  - eauto.
  - destruct (insertFromRight_answers item rprefix Hi Hp) as (out & -> & Hout).
    by apply IH.
Qed.

End SortFacts.

Module ViewFacts.

Lemma arraySort_perm {A : Type} (comparefn : A → A → option Num)
    (e : Engine) (l out : list A) :
  arraySort comparefn e l = Some out → out ≡ₚ l.
Proof. intros Hs. by apply sortLoop_perm in Hs. Qed.

Lemma arraySort_answers {A : Type} (comparefn : A → A → option Num)
    (e : Engine) (P : A → Prop) (l : list A) :
  (∀ a b, P a → P b → is_Some (comparefn a b)) →
  Forall P l → is_Some (arraySort comparefn e l).
Proof.
  intros Hc Hl. apply (sortLoop_answers comparefn e P Hc); [constructor|done].
Qed.

(** Sorting returns, and returns the same records (none lost, none twice),
    for the criteria priority and date and every other criterion value, on
    any records at all; for the criterion title it does so when every title
    is a string. *)
Theorem sort_returns_the_same_records `{Host}
    (criterion : JsVal) (l : list Obj) :
  (criterion = VStr "title" →
   Forall (fun task => ∃ s, get task "title" = VStr s) l) →
  ∃ out, sortBySwitch criterion l = Some out ∧ out ≡ₚ l.
Proof.
  intros Htitle. unfold sortBySwitch.
  assert (Hgo : ∀ comparefn : Obj → Obj → option Num,
            is_Some (arraySort comparefn sortEngine l) →
            ∃ out, arraySort comparefn sortEngine l = Some out ∧ out ≡ₚ l).
  { intros c [out Hout]. exists out. split; [done|].
    by apply arraySort_perm in Hout. }
  destruct (strictEq criterion (VStr "priority")) eqn:Ep.
  - apply Hgo, (arraySort_answers _ _ (fun _ => True)); [|by apply Forall_true].
    intros a b _ _. unfold byPriority.
    repeat case_match; eauto.
  - destruct (strictEq criterion (VStr "title")) eqn:Et.
    + apply strictEq_true in Et.
      apply Hgo, (arraySort_answers _ _
                    (fun task => ∃ s, get task "title" = VStr s)); [|auto].
      intros a b [s Hs] _. unfold byTitle. rewrite Hs. eauto.
    + apply Hgo, (arraySort_answers _ _ (fun _ => True));
        [|by apply Forall_true].
      intros a b _ _. unfold byDueDate.
      repeat case_match; eauto.
Qed.

Lemma sort_returns_the_same_records_witness :
  ∃ out,
    sortBySwitch (H := hostInsertedSecond) (VStr "title")
      TaskContext.getSampleTasks = Some out ∧
    out ≡ₚ TaskContext.getSampleTasks.
Proof.
  apply sort_returns_the_same_records.
  intros _. unfold TaskContext.getSampleTasks.
  repeat (apply List.Forall_cons; [eexists; vm_compute; reflexivity|]).
  apply List.Forall_nil.
Defined.

End ViewFacts.

(** ** Sorting by priority *)

Section PriorityOrderFacts.

Ltac crack s :=
  destruct s as [|[[] [] [] [] [] [] [] []] s]; try reflexivity.

Lemma priorityOrder_spec (p : JsVal) :
  priorityOrder p
  = if decide (p = VStr "high") then Some 3
    else if decide (p = VStr "medium") then Some 2
    else if decide (p = VStr "low") then Some 1
    else None.
Proof.
  destruct p as [| | |n|s]; try reflexivity.
  do 7 (try crack s).
Qed.

End PriorityOrderFacts.

Section RankSort.
Context {A : Type} (comparefn : A → A → option Num) (e : Engine).
Variable key : A → Z.

Abbreviation inRange := (inRank key).

Hypothesis moves_by_key :
  ∀ item other, inRange item → inRange other →
    movesLeft comparefn e item other = Some (key other <? key item).

Lemma insert_between (item : A) (A1 A2 : list A) :
  inRange item → Forall inRange A1 → Forall inRange A2 →
  Forall (fun o => key o < key item) A1 →
  Forall (fun o => key item ≤ key o) A2 →
  insertFromRight comparefn e item (A1 ++ A2) = Some (A1 ++ item :: A2).
Proof.
  intros Hi H1 H2 Hlt Hge.
  induction A1 as [|o A1 IH]; simpl.
  - destruct A2 as [|o A2]; simpl; [done|].
    apply Forall_cons in H2 as [Ho _]. apply Forall_cons in Hge as [Hk _].
    rewrite moves_by_key by done.
    by destruct (Z.ltb_spec (key o) (key item)); [lia|].
  - apply Forall_cons in H1 as [Ho H1]. apply Forall_cons in Hlt as [Hk Hlt].
    rewrite moves_by_key by done.
    destruct (Z.ltb_spec (key o) (key item)); [|lia].
    by rewrite IH.
Qed.

Abbreviation F k l := (filter (fun a => key a = k) l).

Lemma F_snoc_same (k : Z) (d : list A) (item : A) :
  key item = k → F k (d ++ [item]) = F k d ++ [item].
Proof. intros Hk. by rewrite filter_app, filter_cons_True. Qed.

Lemma F_snoc_other (k : Z) (d : list A) (item : A) :
  key item ≠ k → F k (d ++ [item]) = F k d.
Proof.
  intros Hk. by rewrite filter_app, filter_cons_False, filter_nil, app_nil_r.
Qed.

Lemma F_inRange (k : Z) (d : list A) :
  Forall inRange d → Forall inRange (rev (F k d)).
Proof.
  intros Hd. apply Forall_forall. intros a Ha.
  apply list_elem_of_In, in_rev, list_elem_of_In in Ha.
  apply list_elem_of_filter in Ha as [_ Ha].
  rewrite Forall_forall in Hd. auto.
Qed.

Lemma F_key (k : Z) (d : list A) (Q : A → Prop) :
  (∀ a, key a = k → Q a) → Forall Q (rev (F k d)).
Proof.
  intros HQ. apply Forall_forall. intros a Ha.
  apply list_elem_of_In, in_rev, list_elem_of_In in Ha.
  apply list_elem_of_filter in Ha as [Ha _]. auto.
Qed.

Lemma sortLoop_three (d rest : list A) :
  Forall inRange d → Forall inRange rest →
  sortLoop comparefn e (rev (F 3 d ++ F 2 d ++ F 1 d)) rest
  = Some (F 3 (d ++ rest) ++ F 2 (d ++ rest) ++ F 1 (d ++ rest)).
Proof.
  intros Hd Hrest. revert d Hd.
  induction Hrest as [|item rest Hi Hrest IH]; intros d Hd; simpl.
  - by rewrite rev_involutive, app_nil_r.
  - assert (Hd' : Forall inRange (d ++ [item]))
      by (apply Forall_app; split; [done|by apply Forall_singleton]).
    specialize (IH (d ++ [item]) Hd').
    rewrite <- app_assoc in IH. simpl in IH. rewrite <- IH. clear IH.
    rewrite !rev_app_distr, <- !app_assoc.
    assert (Hk : key item = 1 ∨ key item = 2 ∨ key item = 3)
      by (unfold inRank in Hi; lia).
    destruct Hk as [Hk|[Hk|Hk]].
    + assert (Hb : insertFromRight comparefn e item
                     (rev (F 1 d) ++ rev (F 2 d) ++ rev (F 3 d))
                   = Some (item :: rev (F 1 d) ++ rev (F 2 d) ++ rev (F 3 d))).
      { apply (insert_between item []
                 (rev (F 1 d) ++ rev (F 2 d) ++ rev (F 3 d))); try done.
        - repeat (apply Forall_app; split); by apply F_inRange.
        - repeat (apply Forall_app; split); apply F_key; intros; lia. }
      rewrite Hb, (F_snoc_same 1), !F_snoc_other by lia.
      by rewrite rev_app_distr.
    + rewrite (insert_between item (rev (F 1 d)) (rev (F 2 d) ++ rev (F 3 d)));
        try done.
      * rewrite (F_snoc_same 2), !F_snoc_other by lia.
        by rewrite rev_app_distr.
      * by apply F_inRange.
      * repeat (apply Forall_app; split); by apply F_inRange.
      * apply F_key; intros; lia.
      * repeat (apply Forall_app; split); apply F_key; intros; lia.
    + rewrite app_assoc.
      rewrite (insert_between item (rev (F 1 d) ++ rev (F 2 d)) (rev (F 3 d)));
        try done.
      * rewrite (F_snoc_same 3), !F_snoc_other by lia.
        by rewrite rev_app_distr, <- app_assoc.
      * repeat (apply Forall_app; split); by apply F_inRange.
      * by apply F_inRange.
      * repeat (apply Forall_app; split); apply F_key; intros; lia.
      * apply F_key; intros; lia.
Qed.

End RankSort.

Module PriorityFacts.

Lemma priorityRank_high (task : Obj) :
  priorityRank task = 3 ↔ get task "priority" = VStr "high".
Proof.
  unfold priorityRank. rewrite priorityOrder_spec.
  repeat case_decide; simpl; split; intros; try done; congruence.
Qed.

Lemma priorityRank_medium (task : Obj) :
  priorityRank task = 2 ↔ get task "priority" = VStr "medium".
Proof.
  unfold priorityRank. rewrite priorityOrder_spec.
  repeat case_decide; simpl; split; intros; try done; congruence.
Qed.

Lemma priorityRank_low (task : Obj) :
  priorityRank task = 1 ↔ get task "priority" = VStr "low".
Proof.
  unfold priorityRank. rewrite priorityOrder_spec.
  repeat case_decide; simpl; split; intros; try done; congruence.
Qed.

Lemma priorityRank_range (task : Obj) :
  is_Some (priorityOrder (get task "priority")) →
  inRank priorityRank task ∧
  priorityOrder (get task "priority") = Some (priorityRank task).
Proof.
  unfold inRank, priorityRank. rewrite priorityOrder_spec.
  repeat case_decide; simpl; intros [? ?]; try done; split; (lia || done).
Qed.

Lemma byPriority_moves `{Host} (item other : Obj) :
  inRank priorityRank item → inRank priorityRank other →
  movesLeft byPriority sortEngine item other
  = Some (priorityRank other <? priorityRank item).
Proof.
  intros Hi Ho.
  assert (Hsome : ∀ t, inRank priorityRank t →
            priorityOrder (get t "priority") = Some (priorityRank t)).
  { intros t Ht. apply priorityRank_range.
    unfold inRank, priorityRank in Ht.
    destruct (priorityOrder (get t "priority")); [eauto|simpl in Ht; lia]. }
  unfold movesLeft, order, byPriority.
  destruct sortEngine; rewrite (Hsome item Hi), (Hsome other Ho); simpl; f_equal.
  - destruct (Z.ltb_spec (priorityRank other - priorityRank item) 0),
             (Z.ltb_spec (priorityRank other) (priorityRank item)); lia || done.
  - destruct (Z.ltb_spec 0 (priorityRank item - priorityRank other)),
             (Z.ltb_spec (priorityRank other) (priorityRank item)); lia || done.
Qed.

Lemma filter_rank (k : Z) (p : string) (l : list Obj) :
  (∀ task, priorityRank task = k ↔ get task "priority" = VStr p) →
  filter (fun task => priorityRank task = k) l = withPriority p l.
Proof.
  intros Hk. unfold withPriority. apply list_filter_iff. intros task. apply Hk.
Qed.

(** Sorting by priority, when every record's priority is high, medium or
    low, gives the high records, then the medium ones, then the low ones,
    each group in its original order, on either engine. *)
Theorem sort_by_priority_groups `{Host} (l : list Obj) :
  Forall (fun task => is_Some (priorityOrder (get task "priority"))) l →
  sortBySwitch (VStr "priority") l
  = Some (withPriority "high" l ++ withPriority "medium" l
          ++ withPriority "low" l).
Proof.
  intros Hl.
  assert (Hr : Forall (inRank priorityRank) l).
  { eapply Forall_impl; [exact Hl|]. intros t Ht.
    by apply priorityRank_range. }
  change (sortBySwitch (VStr "priority") l)
    with (sortLoop byPriority sortEngine [] l).
  pose proof (sortLoop_three byPriority sortEngine priorityRank
                (fun item other => byPriority_moves item other)
                [] l (List.Forall_nil _) Hr) as Hs.
  simpl in Hs. rewrite Hs.
  by rewrite (filter_rank 3 "high" l priorityRank_high),
             (filter_rank 2 "medium" l priorityRank_medium),
             (filter_rank 1 "low" l priorityRank_low).
Qed.

Lemma sort_by_priority_groups_witness :
  sortBySwitch (H := hostInsertedSecond) (VStr "priority")
    TaskContext.getSampleTasks
  = Some (withPriority "high" TaskContext.getSampleTasks
          ++ withPriority "medium" TaskContext.getSampleTasks
          ++ withPriority "low" TaskContext.getSampleTasks).
Proof.
  apply sort_by_priority_groups. unfold TaskContext.getSampleTasks.
  repeat (apply List.Forall_cons; [vm_compute; eauto|]).
  apply List.Forall_nil.
Defined.

End PriorityFacts.

(** ** The filters of the views *)

Module FilterFacts.


Lemma filterThrowing_throws {A : Type} (p : A → option bool) (l : list A)
    (x : A) :
  x ∈ l → p x = None → filterThrowing p l = None.
Proof.
  intros Hin Hx. induction l as [|y l IH]; [by apply elem_of_nil in Hin|].
  simpl. apply elem_of_cons in Hin as [<-|Hin].
  - by rewrite Hx.
  - destruct (p y); [|done]. by rewrite IH.
Qed.

Lemma elem_of_filter_eq (k : string) (filters : Obj) (l : list Obj)
    (task : Obj) :
  task ∈ (if negb (strictEq (get filters k) (VStr "all"))
          then filter (fun task => strictEq (get task k) (get filters k)) l
          else l)
  ↔ task ∈ l ∧ (get filters k = VStr "all" ∨ get task k = get filters k).
Proof.
  destruct (strictEq (get filters k) (VStr "all")) eqn:E; simpl.
  - apply strictEq_true in E. tauto.
  - rewrite list_elem_of_filter, Is_true_true, strictEq_true.
    assert (get filters k ≠ VStr "all")
      by (intros Heq; rewrite Heq, strictEq_refl in E; done).
    tauto.
Qed.



(** A search throws (a TypeError) as soon as one record that passes the
    status and priority filters has no string for a title. *)
Theorem search_throws_on_missing_title `{Host}
    (tasks : list Obj) (filters : Obj) (sortBy : JsVal)
    (term : string) (task : Obj) :
  get filters "searchTerm" = VStr term →
  term ≠ "" →
  task ∈ tasks →
  passesStatus filters task →
  passesPriority filters task →
  (∀ s, get task "title" ≠ VStr s) →
  filterAndSort tasks filters sortBy = None.
Proof.
  intros Hs Hne Hin Hst Hpr Hno. unfold filterAndSort. cbv zeta.
  rewrite Hs. simpl truthy.
  destruct (String.eqb_spec term ""); [done|]. simpl.
  rewrite (filterThrowing_throws _ _ task); [done| |].
  - apply elem_of_filter_eq. split; [|exact Hpr].
    apply elem_of_filter_eq. by split.
  - unfold matchesSearch. destruct (get task "title"); try done.
    by destruct (Hno s).
Qed.

Lemma search_throws_on_missing_title_witness :
  filterAndSort (H := hostInsertedFirst)
    (TaskContext.getSampleTasks ++ [obj [("id", VNum 5)]])
    (<["searchTerm" := VStr "docs"]>
       (TaskContext.filters TaskContext.initialState))
    (VStr "date")
  = None.
Proof.
  apply (search_throws_on_missing_title _ _ _ "docs" (obj [("id", VNum 5)])).
  - reflexivity.
  - discriminate.
  - apply elem_of_app. right. apply list_elem_of_singleton. reflexivity.
  - left. reflexivity.
  - left. reflexivity.
  - intros s. vm_compute. discriminate.
Defined.

Lemma toLowerCase_empty (s : string) : toLowerCase s = "" ↔ s = "".
Proof. destruct s; simpl; split; intros; done. Qed.

(** Two search terms with the same lower-casing give the same view (or the
    same error). *)
Theorem search_ignores_case_of_term `{Host}
    (tasks : list Obj) (filters : Obj) (sortBy : JsVal) (t1 t2 : string) :
  toLowerCase t1 = toLowerCase t2 →
  filterAndSort tasks (<["searchTerm" := VStr t1]> filters) sortBy
  = filterAndSort tasks (<["searchTerm" := VStr t2]> filters) sortBy.
Proof.
  intros Hl. unfold filterAndSort. cbv zeta.
  rewrite !get_insert_eq, !get_insert_ne by done. simpl truthy.
  assert (He : String.eqb t1 "" = String.eqb t2 "").
  { destruct (String.eqb_spec t1 ""), (String.eqb_spec t2 ""); try done.
    - subst t1. simpl in Hl. symmetry in Hl. by apply (proj1 (toLowerCase_empty _)) in Hl.
    - subst t2. simpl in Hl. by apply (proj1 (toLowerCase_empty _)) in Hl. }
  by rewrite He, Hl.
Qed.

Lemma search_ignores_case_of_term_witness :
  filterAndSort (H := hostInsertedFirst) TaskContext.getSampleTasks
    (<["searchTerm" := VStr "API"]>
       (TaskContext.filters TaskContext.initialState)) (VStr "date")
  = filterAndSort (H := hostInsertedFirst) TaskContext.getSampleTasks
    (<["searchTerm" := VStr "api"]>
       (TaskContext.filters TaskContext.initialState)) (VStr "date").
Proof. apply search_ignores_case_of_term. reflexivity. Defined.

End FilterFacts.

(** ** The provider and its storage *)

Module ProviderFacts.
Import TaskContext.

Lemma saveEffect_nonempty (state : State) (localStorage : Storage) :
  tasks state ≠ [] →
  saveEffect state localStorage = <[storageKey := tasks state]> localStorage.
Proof.
  intros Hne. unfold saveEffect.
  destruct (tasks state); [done|reflexivity].
Qed.

Lemma saveEffect_follows (state : State) (localStorage : Storage) :
  slotFollowsTasks (state, saveEffect state localStorage).
Proof.
  intros Hne. simpl in *. rewrite saveEffect_nonempty by done.
  apply lookup_insert_eq.
Qed.

Lemma mount_follows (env : Env) (localStorage : Storage) (p : Provider) :
  mount env localStorage = Some p → slotFollowsTasks p.
Proof.
  unfold mount. cbv zeta.
  destruct (taskReducer env initialState (loadEffect localStorage));
    [|done].
  intros [= <-]. apply saveEffect_follows.
Qed.

Lemma not_rebuilding (action : Action) :
  rebuildsTasks action = false →
  type action = ACTION_TYPES.SET_FILTER ∨
  type action = ACTION_TYPES.SET_SORT ∨
  type action ∉ ACTION_TYPES.all.
Proof.
  unfold rebuildsTasks. intros Hr. apply bool_decide_eq_false in Hr.
  destruct (decide (type action = ACTION_TYPES.SET_FILTER)); [by left|].
  destruct (decide (type action = ACTION_TYPES.SET_SORT)); [by right; left|].
  right. right. unfold ACTION_TYPES.all. intros Hin. apply Hr.
  rewrite !elem_of_cons in Hin. rewrite !elem_of_cons. tauto.
Qed.

Lemma dispatch_follows (env : Env) (p p' : Provider) (action : Action) :
  slotFollowsTasks p →
  dispatch env p action = Some p' →
  slotFollowsTasks p'.
Proof.
  unfold dispatch. intros Hp.
  destruct (taskReducer env (fst p) action) as [state|] eqn:Hr; [|done].
  intros [= <-].
  destruct (rebuildsTasks action) eqn:Hb.
  - apply saveEffect_follows.
  - apply not_rebuilding in Hb.
    destruct (ReducerFacts.reducer_frame _ _ _ _ Hr) as (_ & _ & Ht).
    unfold slotFollowsTasks. simpl. rewrite (Ht Hb). apply Hp.
Qed.

(** Throughout a session of the provider (the mount, then any dispatched
    actions), whenever the store holds at least one task the slot holds
    exactly the task array of the store. *)
Theorem provider_slot_follows_tasks
    (env : Env) (localStorage : Storage) (steps : list (Env * Action))
    (p0 p : Provider) :
  mount env localStorage = Some p0 →
  dispatchSteps p0 steps = Some p →
  slotFollowsTasks p.
Proof.
  intros Hm%mount_follows. revert p0 Hm.
  induction steps as [|[e action] steps IH]; intros p0 Hp0; simpl.
  - by intros [= <-].
  - destruct (dispatch e p0 action) as [p1|] eqn:Hd; [|done].
    apply IH. by eapply dispatch_follows.
Qed.

Lemma provider_slot_follows_tasks_witness :
  slotFollowsTasks
    (withTasks sampleState
       (filter (fun task => negb (strictEq (get task "id") (VNum 1)))
               getSampleTasks),
     <[storageKey :=
         filter (fun task => negb (strictEq (get task "id") (VNum 1)))
                getSampleTasks]>
       (<[storageKey := getSampleTasks]> ∅)).
Proof.
  apply (provider_slot_follows_tasks env1 ∅
           [(env2, setSort (VStr "title")); (env2, deleteTask (VNum 1));
            (env2, setSort (VStr "date"))]
           (sampleState, <[storageKey := getSampleTasks]> ∅)).
  - reflexivity.
  - reflexivity.
Defined.

Lemma jsonExact_by_evaluation (task : Obj) :
  forallb (fun kv => negb (strictEq (snd kv) VUndef)) (map_to_list task) = true →
  jsonExact task.
Proof.
  intros Hf k Hk. apply elem_of_map_to_list in Hk.
  rewrite forallb_forall in Hf. apply list_elem_of_In, Hf in Hk.
  vm_compute in Hk. discriminate Hk.
Qed.

(** Mounting again on the storage a session left, when that session ended
    with at least one task: the store gets exactly those tasks, in the
    initial view settings (filters and sort criterion are not stored), and
    the storage stays as it is. *)
Theorem remount_restores_tasks_not_view
    (env env' : Env) (localStorage : Storage) (steps : list (Env * Action))
    (p0 p : Provider) :
  mount env localStorage = Some p0 →
  dispatchSteps p0 steps = Some p →
  tasks (fst p) ≠ [] →
  Forall jsonExact (tasks (fst p)) →
  mount env' (snd p) = Some (withTasks initialState (tasks (fst p)), snd p).
Proof.
  intros Hm Hd Hne _.
  pose proof (provider_slot_follows_tasks _ _ _ _ _ Hm Hd Hne) as Hs.
  unfold mount, loadEffect. rewrite Hs. cbv zeta.
  change (taskReducer env' initialState (setTasks (tasks (fst p))))
    with (Some (withTasks initialState (tasks (fst p)))).
  f_equal. f_equal.
  change (saveEffect initialState (snd p)) with (snd p).
  rewrite saveEffect_nonempty by done.
  by apply insert_id.
Qed.

Lemma remount_restores_tasks_not_view_witness :
  mount env2
    (<[storageKey := drop 1 getSampleTasks]>
       (<[storageKey := getSampleTasks]> ∅))
  = Some (withTasks initialState (drop 1 getSampleTasks),
          <[storageKey := drop 1 getSampleTasks]>
            (<[storageKey := getSampleTasks]> ∅)).
Proof.
  refine (remount_restores_tasks_not_view env1 env2 ∅
           [(env2, setSort (VStr "title")); (env2, deleteTask (VNum 1))]
           (sampleState, <[storageKey := getSampleTasks]> ∅)
           (withSortBy
              (withTasks sampleState (drop 1 getSampleTasks))
              (VStr "title"),
            <[storageKey := drop 1 getSampleTasks]>
              (<[storageKey := getSampleTasks]> ∅))
           eq_refl eq_refl _ _).
  - discriminate.
  - repeat (apply List.Forall_cons;
            [apply jsonExact_by_evaluation; vm_compute; reflexivity|]).
    apply List.Forall_nil.
Defined.

End ProviderFacts.

(** ** Fetched tasks *)

Module FetchFacts.
Import Fetch.

(** A request that fails (network error, a status outside 200-299, a body
    that cannot be read as an array) leaves the store and the storage as
    they were and puts the message in the error state. *)
Theorem failed_request_leaves_store
    (render : Page → App.Outcome unit * Page) (envs : nat → TodoEnv)
    (r : Response) (p : Page) (message : string) :
  requestFailure r = Some message →
  fetchSettled render envs r p
  = mkPage (world p) (loadingShown p)
      (Some ("Failed to fetch tasks: " ++ message)%string).
Proof.
  unfold requestFailure, fetchSettled.
  destruct r as [m|status [m|todos]].
  - by intros [= <-].
  - destruct (negb (ok status)); by intros [= <-].
  - destruct (negb (ok status)); [by intros [= <-]|done].
Qed.

Lemma failed_request_leaves_store_witness :
  fetchSettled renderStates (fun _ => mkTodoEnv "" "" "")
    (Responded 503 (inr []))
    (mkPage (App.mkWorld (App.withTasks initialAppState
                            TaskContext.getSampleTasks) ∅ false)
       true None)
  = mkPage (App.mkWorld (App.withTasks initialAppState
                           TaskContext.getSampleTasks) ∅ false)
      true (Some "Failed to fetch tasks: HTTP error! status: 503").
Proof.
  exact (failed_request_leaves_store renderStates (fun _ => mkTodoEnv "" "" "")
           (Responded 503 (inr [])) _ "HTTP error! status: 503" eq_refl).
Defined.





(** A request that succeeds while [setItem] throws: the fetched records are
    in memory all the same, the slot is as it was, [render] is not called,
    and the error state says that fetching failed, with the error that
    [setItem] threw (the exception is caught here, unlike in the
    mutations). *)
Theorem failed_save_after_fetch
    (render : Page → App.Outcome unit * Page) (envs : nat → TodoEnv)
    (status : Z) (todos : list Obj) (p : Page) :
  ok status = true →
  App.setItemThrows (world p) = true →
  fetchSettled render envs (Responded status (inr todos)) p
  = mkPage
      (inMemory (world p)
         (App.tasks (App.appState (world p)) ++ transformedTasks envs todos))
      (loadingShown p)
      (Some "Failed to fetch tasks: QuotaExceededError").
Proof.
  intros Hok Hset. unfold fetchSettled. rewrite Hok. cbn [negb]. cbv zeta.
  change (App.bind App.readTasks _ (world p))
    with ((App.bind (App.writeTasks
             (App.tasks (App.appState (world p))
              ++ transformedTasks envs todos))
             (fun _ => App.saveTasks)) (world p)).
  by rewrite AppFacts.save_run, Hset.
Qed.

Lemma failed_save_after_fetch_witness :
  fetchSettled renderStates
    (fun _ => mkTodoEnv "2024-12-27" "2024-12-24T00:26:40.000Z"
                "2024-12-24T00:26:40.000Z")
    (Responded 200
       (inr [obj [("id", VNum 1); ("title", VStr "delectus aut autem");
                  ("completed", VBool false)]]))
    (mkPage (App.mkWorld initialAppState ∅ true) true None)
  = mkPage (inMemory (App.mkWorld initialAppState ∅ true)
              ([] ++ transformedTasks
                 (fun _ => mkTodoEnv "2024-12-27" "2024-12-24T00:26:40.000Z"
                             "2024-12-24T00:26:40.000Z")
                 [obj [("id", VNum 1); ("title", VStr "delectus aut autem");
                       ("completed", VBool false)]]))
      true (Some "Failed to fetch tasks: QuotaExceededError").
Proof.
  exact (failed_save_after_fetch renderStates
           (fun _ => mkTodoEnv "2024-12-27" "2024-12-24T00:26:40.000Z"
                       "2024-12-24T00:26:40.000Z")
           200
           [obj [("id", VNum 1); ("title", VStr "delectus aut autem");
                 ("completed", VBool false)]]
           (mkPage (App.mkWorld initialAppState ∅ true) true None)
           eq_refl eq_refl).
Defined.

End FetchFacts.

